(** * Allbirds shoe search: query interpreter, catalog cache, catalog filter

    A shallow embedding of [allbirds-shoe-search/server.ts] and the
    properties its specification states about it.

    Conventions of the embedding.
    - A JavaScript string is a sequence of UTF-16 code units; the model
      covers the code units below 256 (ASCII and Latin-1), one [ascii]
      each, so a Rocq [string] is a JavaScript string over that range.
    - A JavaScript number is a binary64 value: [NaN], an infinity, or a
      finite rational (the two zeros are identified, no operation of
      the program tells them apart).
    - The module [JS] holds the built-ins of the language the server
      calls (string methods, [parseFloat], [Math.round], [toFixed],
      the regular expressions it builds); the server's own functions
      follow, under the names they have in the source. *)

From Stdlib Require Import ZArith QArith Qround String Ascii List Bool Lia Lqa.
From Stdlib Require Import DecimalString.
From stdpp Require Import gmap strings.

Open Scope string_scope.
Open Scope list_scope.
Open Scope Z_scope.

Module JS.

(** ** Code units *)

Definition code (c : ascii) : Z := Z.of_N (N_of_ascii c).

Definition unit_of (n : Z) : ascii := ascii_of_N (Z.to_N n).

Definition between (lo hi n : Z) : bool := (lo <=? n) && (n <=? hi).

Definition is_digit (c : ascii) : bool := between 48 57 (code c).

(** WhiteSpace and LineTerminator below U+0100: TAB, LF, VT, FF, CR,
    SP, NBSP.  This is the class [\s] and the set [parseFloat] and
    [trim] skip. *)
Definition is_space (c : ascii) : bool :=
  between 9 13 (code c) || (code c =? 32) || (code c =? 160).

(** The class [\w] of a regular expression without the [u] flag:
    [A-Za-z0-9_]. *)
Definition is_word (c : ascii) : bool :=
  between 65 90 (code c) || between 97 122 (code c)
  || is_digit c || (code c =? 95).

(** [String.prototype.toLowerCase] on one code unit: A-Z, and the
    Latin-1 capitals U+00C0..U+00DE but the multiplication sign. *)
Definition lower_unit (c : ascii) : ascii :=
  let n := code c in
  if between 65 90 n || (between 192 222 n && negb (n =? 215))
  then unit_of (n + 32) else c.

(** Canonicalize of a case-insensitive regular expression (flag [i],
    no [u]): the upper-case mapping where it stays a single code unit.
    Below U+0100 the units y-diaeresis, micro sign and sharp s map
    outside the range or to two units; each of them matches itself
    only, as here. *)
Definition canonicalize (c : ascii) : ascii :=
  let n := code c in
  if between 97 122 n || (between 224 254 n && negb (n =? 247))
  then unit_of (n - 32) else c.

(** ** Strings *)

Fixpoint map_units (f : ascii -> ascii) (s : string) : string :=
  match s with
  | EmptyString => EmptyString
  | String c r => String (f c) (map_units f r)
  end.

Definition toLowerCase (s : string) : string := map_units lower_unit s.

(** Truthiness of a string: every string but the empty one. *)
Definition truthy (s : string) : bool :=
  match s with EmptyString => false | String _ _ => true end.

(** [s.includes(c)] for a one-unit needle. *)
Fixpoint includes_unit (c : ascii) (s : string) : bool :=
  match s with
  | EmptyString => false
  | String d r => Ascii.eqb c d || includes_unit c r
  end.

(** [s.split(/\s+/)]: the pieces between the maximal runs of white
    space, empty pieces at the two ends included.  [cur] is the piece
    being read, [in_run] tells that the previous unit was white space. *)
Fixpoint split_ws_from (cur : string) (in_run : bool) (s : string)
  : list string :=
  match s with
  | EmptyString => [cur]
  | String c r =>
      if is_space c
      then if in_run then split_ws_from cur true r
           else cur :: split_ws_from EmptyString true r
      else split_ws_from (cur +:+ String c EmptyString) false r
  end.

Definition split_ws (s : string) : list string :=
  split_ws_from EmptyString false s.

(** ** Numbers *)

Inductive number : Type :=
| NaN
| Infinity (negative : bool)
| Finite (q : Q).

Definition isNaN (x : number) : bool :=
  match x with NaN => true | _ => false end.

Definition lit (z : Z) : number := Finite (inject_Z z).

(** [x <= y] on numbers; every comparison with [NaN] is false. *)
Definition num_le (x y : number) : bool :=
  match x, y with
  | NaN, _ | _, NaN => false
  | Infinity true, _ => true
  | _, Infinity false => true
  | Infinity false, _ => false
  | _, Infinity true => false
  | Finite p, Finite q => Qle_bool p q
  end.

Definition num_ge (x y : number) : bool := num_le y x.

(** *** Rounding a rational to binary64 (nearest, ties to even) *)

(** [2^k <= n/d], for positive [n] and [d]. *)
Definition ge_pow2 (n d k : Z) : bool :=
  if 0 <=? k then d * 2 ^ k <=? n else d <=? n * 2 ^ (- k).

(** The binary64 value nearest to the positive rational [n/d], as a
    rational, or [None] when it rounds to infinity.  [e] is the
    exponent of [n/d], [p] the exponent of the last place (53
    significant bits, subnormals from 2^-1074 up). *)
Definition round_pos (n d : Z) : option Q :=
  let k := Z.log2 n - Z.log2 d in
  let e := if ge_pow2 n d k then k else k - 1 in
  if 1024 <=? e then None else
  let p := Z.max (e - 52) (-1074) in
  let num := if 0 <=? p then n else n * 2 ^ (- p) in
  let den := if 0 <=? p then d * 2 ^ p else d in
  let qt := num / den in
  let r := num mod den in
  let m := match 2 * r ?= den with
           | Gt => qt + 1
           | Eq => if Z.even qt then qt else qt + 1
           | Lt => qt
           end in
  if (p =? 971) && (2 ^ 53 <=? m) then None else
  Some (Qred (if 0 <=? p then inject_Z (m * 2 ^ p)
              else Qmake m (Z.to_pos (2 ^ (- p))))).

Definition binary64 (q : Q) : number :=
  match Qnum q with
  | Z0 => Finite 0
  | Zpos n =>
      match round_pos (Zpos n) (Zpos (Qden q)) with
      | Some r => Finite r
      | None => Infinity false
      end
  | Zneg n =>
      match round_pos (Zpos n) (Zpos (Qden q)) with
      | Some r => Finite (Qred (- r))
      | None => Infinity true
      end
  end.

(** *** parseFloat *)

Fixpoint trim_start (s : string) : string :=
  match s with
  | String c r => if is_space c then trim_start r else s
  | EmptyString => EmptyString
  end.

(** The longest prefix of decimal digits, and what follows it. *)
Fixpoint span_digits (s : string) : string * string :=
  match s with
  | String c r =>
      if is_digit c
      then let (ds, rest) := span_digits r in (String c ds, rest)
      else (EmptyString, s)
  | EmptyString => (EmptyString, EmptyString)
  end.

Fixpoint digits_value (acc : Z) (s : string) : Z :=
  match s with
  | String c r => digits_value (10 * acc + (code c - 48)) r
  | EmptyString => acc
  end.

(** A leading sign, and what follows it. *)
Definition take_sign (s : string) : bool * string :=
  match s with
  | String "+"%char r => (false, r)
  | String "-"%char r => (true, r)
  | _ => (false, s)
  end.

(** The value of an ExponentPart at the head of [s]; 0 when there is
    none ([e] or [E], an optional sign, at least one digit). *)
Definition exponent_part (s : string) : Z :=
  match s with
  | String c r =>
      if Ascii.eqb c "e" || Ascii.eqb c "E" then
        let (neg, r') := take_sign r in
        let (ds, _) := span_digits r' in
        if truthy ds
        then (if neg then - digits_value 0 ds else digits_value 0 ds)
        else 0
      else 0
  | EmptyString => 0
  end.

(** [m * 10^k] as a rational. *)
Definition scale10 (m k : Z) : Q :=
  if 0 <=? k then inject_Z (m * 10 ^ k)
  else Qmake m (Z.to_pos (10 ^ (- k))).

Definition starts_with (p s : string) : bool := String.prefix p s.

(** [parseFloat]: skip leading white space, read the longest prefix
    that is a StrDecimalLiteral, round its value to binary64; [NaN]
    when no prefix is one. *)
Definition parseFloat (input : string) : number :=
  let (neg, s) := take_sign (trim_start input) in
  if starts_with "Infinity" s then Infinity neg else
  let (ip, r1) := span_digits s in
  let (fp, r2) := match r1 with
                  | String "."%char r => span_digits r
                  | _ => (EmptyString, r1)
                  end in
  if negb (truthy ip) && negb (truthy fp) then NaN else
  let m := digits_value 0 (ip +:+ fp) in
  let k := exponent_part r2 - Z.of_nat (String.length fp) in
  binary64 (scale10 (if neg then - m else m) k).

(** [Math.round]: the nearest integer, ties towards +infinity. *)
Definition Math_round (x : number) : number :=
  match x with
  | Finite q => Finite (inject_Z (Qfloor (q + (1 # 2))))
  | _ => x
  end.

(** *** Number.prototype.toFixed(0) *)

(** The decimal digits of a natural number. *)
Definition digits (z : Z) : string :=
  NilZero.string_of_uint (N.to_uint (Z.to_N z)).

Fixpoint strip_zeros_rev (s : list ascii) : list ascii :=
  match s with
  | "0"%char :: r => strip_zeros_rev r
  | _ => s
  end.

(** The digits of [z] without its trailing zeros. *)
Definition significant (z : Z) : string :=
  string_of_list_ascii
    (rev (strip_zeros_rev (rev (list_ascii_of_string (digits z))))).

(** Number::toString for an integer [x >= 10^21]: the shortest digit
    string [s] (of [k] digits) with [s * 10^(n-k)] rounding back to
    [x], the nearest to [x] when two have that length, printed in
    exponent notation.  [k] runs from 1 up; 17 digits always do. *)
Definition round_trips (x v : Z) : bool :=
  match binary64 (inject_Z v) with
  | Finite q => Qeq_bool q (inject_Z x)
  | _ => false
  end.

Definition candidate (x : Z) (k : Z) : option Z :=
  let n := Z.of_nat (String.length (digits x)) in
  let unit := 10 ^ (n - k) in
  let lo := (x / unit) * unit in
  let hi := lo + unit in
  match round_trips x lo, round_trips x hi with
  | true, true =>
      match 2 * (x - lo) ?= unit with
      | Lt => Some lo
      | Gt => Some hi
      | Eq => Some (if Z.even (x / unit) then lo else hi)
      end
  | true, false => Some lo
  | false, true => Some hi
  | false, false => None
  end.

Fixpoint shortest_from (x : Z) (k : Z) (fuel : nat) : Z :=
  match fuel with
  | O => x
  | S fuel' =>
      match candidate x k with
      | Some v => v
      | None => shortest_from x (k + 1) fuel'
      end
  end.

Definition exponent_notation (x : Z) : string :=
  let v := shortest_from x 1 17 in
  let e := Z.of_nat (String.length (digits v)) - 1 in
  match significant v with
  | String d EmptyString => String d EmptyString +:+ "e+" +:+ digits e
  | String d r => String d EmptyString +:+ "." +:+ r +:+ "e+" +:+ digits e
  | EmptyString => EmptyString
  end.

(** [x.toFixed(0)]: the nearest integer, the larger of two at a tie
    of the magnitude, in plain digits below 10^21 and in exponent
    notation from there on. *)
Definition toFixed0 (x : number) : string :=
  match x with
  | NaN => "NaN"
  | Infinity false => "Infinity"
  | Infinity true => "-Infinity"
  | Finite q =>
      let neg := negb (Qle_bool 0 q) in
      let a := if neg then Qopp q else q in
      let m := if Qle_bool (inject_Z (10 ^ 21)) a
               then exponent_notation (Qfloor a)
               else digits (Qfloor (a + (1 # 2))) in
      if neg then "-" +:+ m else m
  end.

(** ** Regular expressions

    The fragment the server builds: a sequence of literal code units
    and word-boundary assertions, with or without the flag [i]. *)

Inductive atom : Type :=
| WordBoundary
| Unit (c : ascii).

Record RegExp : Type := mkRegExp { atoms : list atom; ignoreCase : bool }.

(** SyntaxCharacter of the pattern grammar. *)
Definition is_syntax (c : ascii) : bool := includes_unit c "^$\.*+?()[]{}|".

(** The pattern grammar on that fragment: [\b], an identity escape of
    a syntax character, or a pattern character that stands for itself.
    [None] is a source outside the fragment (an operator, a class, a
    group, another escape, a lone backslash). *)
Fixpoint parse_pattern (src : string) : option (list atom) :=
  match src with
  | EmptyString => Some []
  | String "\"%char EmptyString => None
  | String "\"%char (String c r) =>
      if Ascii.eqb c "b" then cons WordBoundary <$> parse_pattern r
      else if is_syntax c then cons (Unit c) <$> parse_pattern r
      else None
  | String c r =>
      if is_syntax c then None else cons (Unit c) <$> parse_pattern r
  end.

(** [new RegExp(src, "i")] *)
Definition new_RegExp_i (src : string) : option RegExp :=
  (fun a => mkRegExp a true) <$> parse_pattern src.

Definition unit_matches (ic : bool) (c d : ascii) : bool :=
  if ic then Ascii.eqb (canonicalize c) (canonicalize d) else Ascii.eqb c d.

Definition word_before (prev : option ascii) : bool :=
  match prev with Some c => is_word c | None => false end.

Definition word_after (rest : string) : bool :=
  match rest with String c _ => is_word c | EmptyString => false end.

(** The assertion [\b] between the unit [prev] (none at the start of
    the input) and the remaining input [rest]. *)
Definition at_boundary (prev : option ascii) (rest : string) : bool :=
  xorb (word_before prev) (word_after rest).

(** The atoms match the input from the current position on. *)
Fixpoint match_here (ic : bool) (p : list atom) (prev : option ascii)
  (rest : string) : bool :=
  match p with
  | [] => true
  | WordBoundary :: p' => at_boundary prev rest && match_here ic p' prev rest
  | Unit c :: p' =>
      match rest with
      | String d r => unit_matches ic c d && match_here ic p' (Some d) r
      | EmptyString => false
      end
  end.

(** The start positions are tried from left to right, the end of the
    input included. *)
Fixpoint search_from (ic : bool) (p : list atom) (prev : option ascii)
  (rest : string) : bool :=
  match_here ic p prev rest
  || match rest with
     | String d r => search_from ic p (Some d) r
     | EmptyString => false
     end.

(** [re.test(s)] *)
Definition test (re : RegExp) (s : string) : bool :=
  search_from (ignoreCase re) (atoms re) None s.

(** The atoms of a literal: one [Unit] per code unit. *)
Fixpoint units (s : string) : list atom :=
  match s with
  | EmptyString => []
  | String c r => Unit c :: units r
  end.

(** [table[x]] for an object with integer keys: the property key of a
    number is its decimal string, so only an integer-valued [x] can
    name a key of the table. *)
Definition index_by_number (table : gmap Z string) (x : number)
  : option string :=
  match x with
  | Finite q =>
      if Qeq_bool q (inject_Z (Qfloor q)) then table !! Qfloor q else None
  | _ => None
  end.

(** [a ?? b] *)
Definition nullish {A : Type} (a : option A) (b : A) : A :=
  match a with Some x => x | None => b end.

End JS.

Import JS.

(** * The server: data *)

Inductive Gender : Type := men | women.

(** ShopifyVariant.  The upstream JSON may leave [available] out; the
    size filter tests it with [!== false]. *)
Module Variant.
Record t : Type := mk {
  title : string;
  price : string;
  available : option bool
}.
End Variant.

(** ShopifyProduct; [images] holds the [src] of each image. *)
Module Product.
Record t : Type := mk {
  title : string;
  handle : string;
  variants : list Variant.t;
  images : list string
}.
End Product.

Module Shoe.
Record t : Type := mk {
  name : string;
  price : string;
  imageUrl : string;
  productUrl : string;
  size : option string;
  handle : string
}.
End Shoe.

Module SearchResult.
Record t : Type := mk {
  query : string;
  size : option string;
  gender : option Gender;
  shoes : list Shoe.t;
  totalFound : nat;
  error : option string
}.
End SearchResult.

(** * Query interpreter *)

(** EU to US men's size conversion. *)
Definition EU_TO_US : gmap Z string :=
  list_to_map
    [ (35, "4"); (36, "4.5"); (37, "5"); (38, "6"); (39, "6.5");
      (40, "7"); (41, "8"); (42, "9"); (43, "10"); (44, "11");
      (45, "12"); (46, "13"); (47, "14"); (48, "15") ].

(** Generic words that appear in queries but not in product titles. *)
Definition IGNORED_TERMS : gset string :=
  list_to_set
    [ "shoes"; "shoe"; "chaussures"; "chaussure"; "sneakers"; "sneaker" ].

Definition in_range (lo hi : Z) (num : number) : bool :=
  num_ge num (lit lo) && num_le num (lit hi).

Definition resolveSize (size : string) : string :=
  let num := parseFloat size in
  if negb (isNaN num) && in_range 35 50 num
  then nullish (index_by_number EU_TO_US (Math_round num)) size
  else size.

(** The test of the loop of [parseQueryAndSize]: US size range 4-15 or
    EU size range 35-50. *)
Definition is_size_number (num : number) : bool :=
  negb (isNaN num) && (in_range 4 15 num || in_range 35 50 num).

(** One turn of the loop over the tokens; the state is the pair of
    [sizeTokens] and [textTokens]. *)
Definition classify (acc : list string * list string) (token : string)
  : list string * list string :=
  let (sizeTokens, textTokens) := acc in
  let num := parseFloat token in
  if is_size_number num then (sizeTokens ++ [token], textTokens)
  else if String.eqb token "taille" || String.eqb token "size" then acc
  else if negb (bool_decide (token ∈ IGNORED_TERMS))
       then (sizeTokens, textTokens ++ [token])
       else acc.

Definition tokenize (rawQuery : string) : list string :=
  List.filter truthy (split_ws (toLowerCase rawQuery)).

Module Parsed.
Record t : Type := mk { terms : list string; size : option string }.
End Parsed.

Definition parseQueryAndSize (rawQuery : string) (explicitSize : option string)
  : Parsed.t :=
  let tokens := tokenize rawQuery in
  let (sizeTokens, textTokens) := fold_left classify tokens ([], []) in
  let rawSize := match explicitSize with
                 | Some e => Some e
                 | None => head sizeTokens
                 end in
  let size := match rawSize with
              | Some r => if truthy r then Some (resolveSize r) else None
              | None => None
              end in
  Parsed.mk textTokens size.

(** * Catalog filter: the closures of [searchAllbirds] *)

(** The class [[.*+?^${}()|[\]\\]] of the replace. *)
Definition is_special (c : ascii) : bool := includes_unit c ".*+?^${}()|[]\".

(** [term.replace(/[.*+?^${}()|[\]\\]/g, "\\$&")]: a backslash before
    each special unit. *)
Fixpoint escape (term : string) : string :=
  match term with
  | EmptyString => EmptyString
  | String c r =>
      if is_special c then String "\" (String c (escape r))
      else String c (escape r)
  end.

(** The expression built for a term: a word boundary, then the term. *)
Definition term_RegExp (term : string) : option RegExp :=
  new_RegExp_i ("\b" +:+ escape term).

(** The closure given to [terms.every].  The constructor accepts every
    escaped term ([term_RegExp_total] below), so the second branch is
    never taken. *)
Definition term_test (title term : string) : bool :=
  match term_RegExp term with
  | Some re => test re title
  | None => false
  end.

Definition term_filter (terms : list string) (p : Product.t) : bool :=
  let title := toLowerCase (Product.title p) in
  (length terms =? 0)%nat || forallb (term_test title) terms.

(** [/\bwomen\b/i] and [/\bmen\b/i] *)
Definition re_women : RegExp :=
  mkRegExp (WordBoundary :: units "women" ++ [WordBoundary]) true.
Definition re_men : RegExp :=
  mkRegExp (WordBoundary :: units "men" ++ [WordBoundary]) true.

Definition gender_filter (gender : option Gender) (p : Product.t) : bool :=
  match gender with
  | Some women => test re_women (Product.title p)
  | Some men =>
      test re_men (Product.title p) && negb (test re_women (Product.title p))
  | None => true
  end.

(** A value used as a condition: [undefined] and the empty string are
    false. *)
Definition given (usSize : option string) : option string :=
  match usSize with
  | Some s => if truthy s then Some s else None
  | None => None
  end.

Definition title_is (usSize : string) (v : Variant.t) : bool :=
  String.eqb (toLowerCase (Variant.title v)) (toLowerCase usSize).

Definition not_false (available : option bool) : bool :=
  match available with Some false => false | _ => true end.

Definition size_filter (usSize : option string) (p : Product.t) : bool :=
  match given usSize with
  | Some s =>
      existsb (fun v => title_is s v && not_false (Variant.available v))
        (Product.variants p)
  | None => true
  end.

(** The three filters in the order of the source. *)
Definition select (terms : list string) (gender : option Gender)
  (usSize : option string) (allProducts : list Product.t)
  : list Product.t :=
  let matches := List.filter (term_filter terms) allProducts in
  let matches := List.filter (gender_filter gender) matches in
  List.filter (size_filter usSize) matches.

Definition targetVariant (usSize : option string) (p : Product.t)
  : option Variant.t :=
  match given usSize with
  | Some s => List.find (title_is s) (Product.variants p)
  | None => head (Product.variants p)
  end.

Definition price_label (v : option Variant.t) : string :=
  match v with
  | Some v =>
      if truthy (Variant.price v)
      then "$" +:+ toFixed0 (parseFloat (Variant.price v))
      else "See price"
  | None => "See price"
  end.

Definition productUrl_of (usSize : option string) (p : Product.t) : string :=
  "https://www.allbirds.com/products/" +:+ Product.handle p
  +:+ match given usSize with
      | Some s => "?size=" +:+ s
      | None => EmptyString
      end.

(** * The world of the server

    The module-level variables [productsCache] and [cacheTime] are the
    state; the clock and the network are the environment.  [Date.now()]
    returns the next reading of the clock, [fetch] of the catalog URL
    gets the next answer of the upstream endpoint, and an image request
    gets the answer the environment has for its URL.  One call of an
    asynchronous function is run from its start to its end; calls that
    interleave at an [await] are outside the model. *)

Inductive JsonOutcome : Type :=
| JsonSyntaxError (message : string)
| JsonData (products : option (list Product.t)).

(** What [fetch] of the catalog does: it rejects (a transport
    failure), or it resolves to a response with a status and a body
    that [res.json()] reads.  [res.ok] is a status in 200..299. *)
Inductive CatalogOutcome : Type :=
| NetworkError (message : string)
| HttpResponse (status : Z) (json : JsonOutcome).

(** What the request of an image does: it fails (at [fetch] or at
    [arrayBuffer()]), or it gives a status, the content type header
    and the body, held here in its base64 text. *)
Inductive ImageOutcome : Type :=
| ImageFailed
| ImageResponse (status : Z) (contentType : option string) (base64 : string).

Definition status_ok (status : Z) : bool := between 200 299 status.

Record Env : Type := mkEnv {
  clock : nat -> Z;
  upstream : nat -> CatalogOutcome;
  image_server : string -> ImageOutcome
}.

Record World : Type := mkWorld {
  productsCache : option (list Product.t);
  cacheTime : Z;
  clockReads : nat;
  catalogFetches : nat
}.

(** The state when the module is loaded. *)
Definition initial : World := mkWorld None 0 0 0.

Inductive outcome (A : Type) : Type :=
| Returned (a : A)
| Thrown (message : string).
Arguments Returned {A} a.
Arguments Thrown {A} message.

(** A promise-returning function: it reads the environment, changes
    the state, and returns or throws. *)
Definition Async (A : Type) : Type := Env -> World -> outcome A * World.

#[global] Instance Async_ret : MRet Async :=
  fun A a _ w => (Returned a, w).

#[global] Instance Async_bind : MBind Async :=
  fun A B k m env w =>
    match m env w with
    | (Returned a, w') => k a env w'
    | (Thrown message, w') => (Thrown message, w')
    end.

Definition throw {A : Type} (message : string) : Async A :=
  fun _ w => (Thrown message, w).

Definition Date_now : Async Z :=
  fun env w =>
    (Returned (clock env (clockReads w)),
     mkWorld (productsCache w) (cacheTime w) (S (clockReads w))
       (catalogFetches w)).

Definition get_productsCache : Async (option (list Product.t)) :=
  fun _ w => (Returned (productsCache w), w).

Definition get_cacheTime : Async Z :=
  fun _ w => (Returned (cacheTime w), w).

Definition set_productsCache (ps : list Product.t) : Async unit :=
  fun _ w =>
    (Returned tt,
     mkWorld (Some ps) (cacheTime w) (clockReads w) (catalogFetches w)).

Definition set_cacheTime (t : Z) : Async unit :=
  fun _ w =>
    (Returned tt,
     mkWorld (productsCache w) t (clockReads w) (catalogFetches w)).

(** [await fetch("https://www.allbirds.com/products.json?limit=250")] *)
Definition fetch_catalog : Async (Z * JsonOutcome) :=
  fun env w =>
    let w' := mkWorld (productsCache w) (cacheTime w) (clockReads w)
                (S (catalogFetches w)) in
    match upstream env (catalogFetches w) with
    | NetworkError message => (Thrown message, w')
    | HttpResponse status json => (Returned (status, json), w')
    end.

(** [await res.json()] *)
Definition res_json (json : JsonOutcome) : Async (option (list Product.t)) :=
  match json with
  | JsonSyntaxError message => throw message
  | JsonData products => mret products
  end.

Definition fetch_image (url : string) : Async ImageOutcome :=
  fun env w => (Returned (image_server env url), w).

(** [Promise.all(items.map(f))]: the results in the order of the
    items. *)
Fixpoint all {A B : Type} (f : A -> Async B) (items : list A)
  : Async (list B) :=
  match items with
  | [] => mret []
  | x :: rest => y ← f x; ys ← all f rest; mret (y :: ys)
  end.

(** * Image fetch *)

Definition fetchImageAsDataUrl (url : string) : Async string :=
  let sep := if includes_unit "?" url then "&" else "?" in
  let imgUrl := url +:+ sep +:+ "width=200&format=pjpg" in
  res ← fetch_image imgUrl;
  match res with
  | ImageFailed => mret EmptyString
  | ImageResponse status contentType base64 =>
      if negb (status_ok status) then mret EmptyString
      else mret ("data:" +:+ nullish contentType "image/jpeg"
                 +:+ ";base64," +:+ base64)
  end.

(** * Catalog cache *)

Definition CACHE_TTL_MS : Z := 5 * 60 * 1000.

Definition http_error (status : Z) : string :=
  "HTTP " +:+ NilZero.string_of_int (Z.to_int status)
  +:+ ": Failed to fetch Allbirds products".

(** The part of [fetchAllProducts] after the test of the cache. *)
Definition refresh : Async (list Product.t) :=
  res ← fetch_catalog;
  if negb (status_ok (fst res)) then throw (http_error (fst res))
  else
    data ← res_json (snd res);
    let products := nullish data [] in
    _ ← set_productsCache products;
    now ← Date_now;
    _ ← set_cacheTime now;
    mret products.

(** An array is truthy, the empty one too: the cache counts as present
    as soon as it is not [null], and the clock is read only then. *)
Definition fetchAllProducts : Async (list Product.t) :=
  cached ← get_productsCache;
  match cached with
  | Some ps =>
      now ← Date_now;
      t ← get_cacheTime;
      if now - t <? CACHE_TTL_MS then mret ps else refresh
  | None => refresh
  end.

(** * Search *)

Definition build_shoe (usSize : option string) (p : Product.t)
  : Async Shoe.t :=
  let price := price_label (targetVariant usSize p) in
  let rawImageUrl := nullish (head (Product.images p)) EmptyString in
  imageUrl ← (if truthy rawImageUrl then fetchImageAsDataUrl rawImageUrl
              else mret EmptyString);
  mret (Shoe.mk (Product.title p) price imageUrl (productUrl_of usSize p)
          usSize (Product.handle p)).

Definition searchAllbirds (query : string) (size : option string)
  (gender : option Gender) : Async SearchResult.t :=
  let parsed := parseQueryAndSize query size in
  let usSize := Parsed.size parsed in
  allProducts ← fetchAllProducts;
  let matches := select (Parsed.terms parsed) gender usSize allProducts in
  let top10 := firstn 5 matches in
  shoes ← all (build_shoe usSize) top10;
  mret (SearchResult.mk query
          (match usSize with Some s => Some s | None => size end)
          gender shoes (length matches) None).

(** * The tool [search-allbirds-shoes]

    [structuredContent] is the result; the [content] of the answer is
    the same record as JSON text. *)
Record CallToolResult : Type := mkCallToolResult {
  structuredContent : SearchResult.t;
  isError : bool
}.

Definition search_allbirds_shoes (query : string) (size : option string)
  (gender : option Gender) (env : Env) (w : World)
  : CallToolResult * World :=
  match searchAllbirds query size gender env w with
  | (Returned result, w') => (mkCallToolResult result false, w')
  | (Thrown message, w') =>
      (mkCallToolResult
         (SearchResult.mk query size gender [] 0%nat (Some message)) true,
       w')
  end.

(** * Words of the specification

    What the specification means by its words, written without the
    regular expressions: equality up to case, an occurrence that starts
    at a word boundary, an occurrence as a whole word. *)

(** The unit before the position reached by reading [s], with [prev]
    before [s]. *)
Fixpoint last_unit (prev : option ascii) (s : string) : option ascii :=
  match s with
  | EmptyString => prev
  | String c r => last_unit (Some c) r
  end.

Definition same_letters (a b : string) : Prop :=
  map_units canonicalize a = map_units canonicalize b.

Fixpoint all_word (s : string) : bool :=
  match s with
  | EmptyString => true
  | String c r => is_word c && all_word r
  end.

(** [term] occurs in [title], up to case, from a position where a word
    boundary lies; where the occurrence ends is free. *)
Definition occurs_at_boundary (term title : string) : Prop :=
  exists pre mid post,
    title = pre +:+ mid +:+ post /\ same_letters term mid
    /\ at_boundary (last_unit None pre) (mid +:+ post) = true.

(** [w] occurs in [title], up to case, with no word unit just before
    it and none just after it. *)
Definition occurs_as_word (w title : string) : Prop :=
  exists pre mid post,
    title = pre +:+ mid +:+ post /\ same_letters w mid
    /\ word_before (last_unit None pre) = false
    /\ word_after post = false.


(** The two classes of tokens the loop of [parseQueryAndSize] keeps. *)
Definition is_size_token (token : string) : bool :=
  is_size_number (parseFloat token).

Definition is_text_token (token : string) : bool :=
  negb (is_size_token token)
  && negb (String.eqb token "taille" || String.eqb token "size")
  && negb (bool_decide (token ∈ IGNORED_TERMS)).

(** [sizeTokens] at the end of the loop of [parseQueryAndSize]. *)
Definition sizeTokens_of (rawQuery : string) : list string :=
  fst (fold_left classify (tokenize rawQuery) ([], [])).

(** [n] is the integer nearest to [q], the upper one at a tie. *)
Definition nearest (n : Z) (q : Q) : Prop :=
  (inject_Z n - (1 # 2) <= q)%Q /\ (q < inject_Z n + (1 # 2))%Q.

(** The state after one request to the upstream endpoint. *)
Definition fetched (w : World) : World :=
  mkWorld (productsCache w) (cacheTime w) (clockReads w) (S (catalogFetches w)).

(** The state after one reading of the clock. *)
Definition ticked (w : World) : World :=
  mkWorld (productsCache w) (cacheTime w) (S (clockReads w)) (catalogFetches w).

(** The product list an answer of the upstream endpoint carries, when
    it is a success: a status in 200..299 and a body that parses; a
    document without [products] counts as the empty list. *)
Definition catalog_of (o : CatalogOutcome) : option (list Product.t) :=
  match o with
  | HttpResponse status (JsonData products) =>
      if status_ok status then Some (nullish products []) else None
  | _ => None
  end.

(** No snapshot, or a snapshot at least as old as the window at the
    next reading of the clock. *)
Definition refresh_due (env : Env) (w : World) : Prop :=
  productsCache w = None
  \/ CACHE_TTL_MS <= clock env (clockReads w) - cacheTime w.

(** The catalog fetch fails: the transport fails or the status is not
    a success. *)
Definition fetch_fails (o : CatalogOutcome) : Prop :=
  match o with
  | NetworkError _ => True
  | HttpResponse status _ => status_ok status = false
  end.

(** What a shoe of the result takes from its product. *)
Definition shoe_of (usSize : option string) (p : Product.t) (shoe : Shoe.t)
  : Prop :=
  Shoe.name shoe = Product.title p
  /\ Shoe.handle shoe = Product.handle p
  /\ Shoe.price shoe = price_label (targetVariant usSize p)
  /\ Shoe.productUrl shoe = productUrl_of usSize p
  /\ Shoe.size shoe = usSize.

(** The three filters one after the other keep the products that pass
    the three tests. *)
Definition passes (terms : list string) (gender : option Gender)
  (usSize : option string) (p : Product.t) : bool :=
  term_filter terms p && gender_filter gender p && size_filter usSize p.

(** * Further words

    Predicates used to state what the functions keep. *)

(** Every unit of [s] passes [P]. *)
Fixpoint all_units (P : ascii -> bool) (s : string) : bool :=
  match s with
  | EmptyString => true
  | String c r => P c && all_units P r
  end.

(** A unit that is no white space and that [toLowerCase] leaves as it
    is. *)
Definition token_unit (c : ascii) : bool :=
  negb (is_space c) && Ascii.eqb (lower_unit c) c.

(** The environment with another image server. *)
Definition with_images (env : Env) (images : string -> ImageOutcome) : Env :=
  mkEnv (clock env) (upstream env) images.

(** Two shoes that differ at most by their image. *)
Definition same_but_image (a b : Shoe.t) : Prop :=
  Shoe.name a = Shoe.name b /\ Shoe.price a = Shoe.price b
  /\ Shoe.productUrl a = Shoe.productUrl b /\ Shoe.size a = Shoe.size b
  /\ Shoe.handle a = Shoe.handle b.

(** * The app that shows the answers (mcp-app.tsx)

    The component keeps two pieces of state, [result] and [loading];
    the host calls its handlers when the tool gets its input, when it
    answers and when it is cancelled.  What it renders is given as the
    list of the panels in its container.  [JSON.parse] and
    [JSON.stringify] are parameters: [parse] gives no result when the
    text does not parse. *)
Module App.

(** An entry of the [content] of a tool answer. *)
Inductive Content : Type :=
| Text (text : string)
| Other.

(** A tool answer as the app gets it. *)
Record ToolAnswer : Type := mkToolAnswer {
  structured : option SearchResult.t;
  content : option (list Content)
}.

Definition is_text (c : Content) : bool :=
  match c with Text _ => true | Other => false end.

Definition extractResult (parse : string -> option SearchResult.t)
  (r : ToolAnswer) : option SearchResult.t :=
  match structured r with
  | Some result => Some result
  | None =>
      match content r with
      | Some entries =>
          match List.find is_text entries with
          | Some (Text text) => parse text
          | _ => None
          end
      | None => None
      end
  end.

(** The answer of the server's tool, as it is sent: the result as
    [structuredContent] and its JSON text as the one entry of
    [content]. *)
Definition sent (stringify : SearchResult.t -> string) (a : CallToolResult)
  : ToolAnswer :=
  mkToolAnswer (Some (structuredContent a))
    (Some [Text (stringify (structuredContent a))]).

Record State : Type := mkState {
  result : option SearchResult.t;
  loading : bool
}.

(** [useState(null)] and [useState(false)] *)
Definition start : State := mkState None false.

Definition ontoolinput (st : State) : State := mkState None true.

Definition ontoolresult (parse : string -> option SearchResult.t)
  (r : ToolAnswer) (st : State) : State :=
  match extractResult parse r with
  | Some parsed => mkState (Some parsed) false
  | None => mkState (result st) false
  end.

Definition ontoolcancelled (st : State) : State := mkState (result st) false.

Inductive Event : Type :=
| ToolInput
| ToolResult (r : ToolAnswer)
| ToolCancelled.

Definition handle (parse : string -> option SearchResult.t) (st : State)
  (e : Event) : State :=
  match e with
  | ToolInput => ontoolinput st
  | ToolResult r => ontoolresult parse r st
  | ToolCancelled => ontoolcancelled st
  end.

(** What a [ShoeCard] shows: the image or the placeholder, the name,
    the price, the size tag when the shoe has a size, and the address
    a click opens. *)
Record Card : Type := mkCard {
  image : option string;
  name : string;
  price : string;
  sizeTag : option string;
  opens : string
}.

Definition ShoeCard (shoe : Shoe.t) (imgError : bool) : Card :=
  mkCard
    (if truthy (Shoe.imageUrl shoe) && negb imgError
     then Some (Shoe.imageUrl shoe) else None)
    (Shoe.name shoe) (Shoe.price shoe)
    (match given (Shoe.size shoe) with
     | Some s => Some ("US " +:+ s)
     | None => None
     end)
    (Shoe.productUrl shoe).

Inductive Panel : Type :=
| AppError (message : string)
| Connecting
| Spinner
| AskAssistant
| Message (text : string)
| NoResults (query : string)
| Grid (shoes : list Shoe.t).

Definition when (condition : bool) (p : Panel) : list Panel :=
  if condition then [p] else [].

(** [result?.error] as a condition. *)
Definition error_of (result : option SearchResult.t) : option string :=
  match result with
  | Some r => given (SearchResult.error r)
  | None => None
  end.

(** The body of [AllbirdsApp]; [error] and [app] are what [useApp]
    gives. *)
Definition AllbirdsApp (error : option string) (app : bool) (st : State)
  : list Panel :=
  match error with
  | Some message => [AppError message]
  | None =>
      if negb app then [Connecting] else
      when (loading st) Spinner
      ++ when (negb (loading st)
               && match result st with None => true | Some _ => false end)
           AskAssistant
      ++ match error_of (result st) with
         | Some e => when (negb (loading st)) (Message e)
         | None => []
         end
      ++ match result st with
         | Some r =>
             when (negb (loading st)
                   && match error_of (result st) with
                      | Some _ => false
                      | None => true
                      end
                   && (length (SearchResult.shoes r) =? 0)%nat)
               (NoResults (SearchResult.query r))
             ++ when (negb (loading st)
                      && (0 <? length (SearchResult.shoes r))%nat)
                  (Grid (SearchResult.shoes r))
         | None => []
         end
  end.

(** An event of a session with the server: the answers are answers of
    the server's tool. *)
Definition from_server (stringify : SearchResult.t -> string) (e : Event)
  : Prop :=
  match e with
  | ToolResult r =>
      exists query size gender env w,
        r = sent stringify (fst (search_allbirds_shoes query size gender env w))
  | _ => True
  end.

End App.

(** * Fixtures *)

Module Fixture.

(** A product that has only a title. *)
Definition titled (title : string) : Product.t := Product.mk title "" [] [].

(** A product whose size 9 is listed twice: sold out at 100, on sale
    at 120. *)
Definition sold_out_9 : Variant.t := Variant.mk "9" "100.00" (Some false).
Definition on_sale_9 : Variant.t := Variant.mk "9" "120.00" (Some true).
Definition two_nines : Product.t :=
  Product.mk "Men's Tree Runner" "mens-tree-runner" [sold_out_9; on_sale_9] [].

Definition runner (n : string) : Product.t :=
  Product.mk ("Wool Runner " +:+ n) ("wool-runner-" +:+ n)
    [Variant.mk "9" "98.00" (Some true)] ["https://cdn.example/r.png"].

(** Seven runners and a lounger. *)
Definition catalog : list Product.t :=
  [ runner "1"; runner "2"; titled "Wool Lounger"; runner "3"; runner "4";
    runner "5"; runner "6"; runner "7" ].

(** The clock advances a second at each reading. *)
Definition seconds (n : nat) : Z := 1000 * Z.of_nat n.

Definition no_images (url : string) : ImageOutcome := ImageFailed.

(** An upstream endpoint that serves [products]. *)
Definition serving (products : list Product.t) : Env :=
  mkEnv seconds (fun _ => HttpResponse 200 (JsonData (Some products)))
    no_images.

(** An upstream endpoint that answers 500. *)
Definition failing : Env :=
  mkEnv seconds (fun _ => HttpResponse 500 (JsonData None)) no_images.

(** A state with a snapshot taken at time 0. *)
Definition cached (products : list Product.t) : World :=
  mkWorld (Some products) 0 1 1.


(** An upstream endpoint whose document has no [products]. *)
Definition bare : Env :=
  mkEnv seconds (fun _ => HttpResponse 200 (JsonData None)) no_images.

End Fixture.

(** * Lemmas on code units and strings *)

#[local] Arguments String.append !s1 s2 : simpl nomatch.

Ltac each_unit c := destruct c as [[] [] [] [] [] [] [] []].

Lemma canonicalize_lower c : canonicalize (lower_unit c) = canonicalize c.
Proof. each_unit c; reflexivity. Qed.

Lemma is_word_lower c : is_word (lower_unit c) = is_word c.
Proof. each_unit c; reflexivity. Qed.

Lemma is_word_canonicalize c : is_word (canonicalize c) = is_word c.
Proof. each_unit c; reflexivity. Qed.

Lemma special_is_syntax c :
  is_special c = true -> Ascii.eqb c "b" = false /\ is_syntax c = true.
Proof. each_unit c; vm_compute; intros H; try discriminate H; auto. Qed.

Lemma plain_not_syntax c :
  is_special c = false -> Ascii.eqb c "\" = false /\ is_syntax c = false.
Proof. each_unit c; vm_compute; intros H; try discriminate H; auto. Qed.

Lemma same_letters_nil_l mid : same_letters EmptyString mid -> mid = EmptyString.
Proof. destruct mid; [reflexivity | discriminate]. Qed.

Lemma same_letters_cons c w d mid :
  same_letters (String c w) (String d mid)
  <-> canonicalize c = canonicalize d /\ same_letters w mid.
Proof.
  unfold same_letters; simpl; split.
  - intros H; injection H; auto.
  - intros [H1 H2]; congruence.
Qed.

Lemma same_letters_word w mid :
  same_letters w mid -> all_word w = true -> all_word mid = true.
Proof.
  revert mid; induction w as [|c w IH]; intros [|d mid] H Hw;
    try discriminate H; [reflexivity|].
  apply same_letters_cons in H as [Hc Hr].
  simpl in *. apply andb_true_iff in Hw as [Hw1 Hw2].
  rewrite <- (is_word_canonicalize d), <- Hc, is_word_canonicalize, Hw1.
  simpl; auto.
Qed.

(** A word that is not empty begins and ends with a word unit. *)
Lemma word_after_app mid post :
  all_word mid = true -> mid <> EmptyString -> word_after (mid +:+ post) = true.
Proof.
  destruct mid as [|c r]; [congruence|]; simpl.
  intros H _; apply andb_true_iff in H; tauto.
Qed.

Lemma word_before_last prev mid :
  all_word mid = true -> mid <> EmptyString ->
  word_before (last_unit prev mid) = true.
Proof.
  revert prev; induction mid as [|c r IH]; intros prev H Hne; [congruence|].
  simpl in *. apply andb_true_iff in H as [Hc Hr].
  destruct r as [|d r']; [exact Hc|].
  apply IH; [exact Hr | discriminate].
Qed.

(** * Lemmas on the regular expressions *)

Lemma parse_pattern_escape term : parse_pattern (escape term) = Some (units term).
Proof.
  induction term as [|c r IH]; [reflexivity|].
  simpl. destruct (is_special c) eqn:E.
  - apply special_is_syntax in E as [Eb Es].
    cbn [parse_pattern]. rewrite Eb, Es, IH. reflexivity.
  - apply plain_not_syntax in E as [Eb Es].
    assert (H : parse_pattern (String c (escape r))
                = if is_syntax c then None
                  else cons (Unit c) <$> parse_pattern (escape r)).
    { revert Eb. clear. each_unit c; intros Eb; try reflexivity;
        discriminate Eb. }
    rewrite H, Es, IH. reflexivity.
Qed.

(** The constructor never throws on an escaped term, and the
    expression it builds is the boundary followed by the term, unit
    for unit: no unit of the term is read as an operator. *)
Lemma term_RegExp_total term :
  term_RegExp term = Some (mkRegExp (WordBoundary :: units term) true).
Proof.
  unfold term_RegExp, new_RegExp_i.
  change ("\b" +:+ escape term) with (String "\" (String "b" (escape term))).
  cbn [parse_pattern]. change (Ascii.eqb "b" "b") with true. cbn iota.
  rewrite parse_pattern_escape. reflexivity.
Qed.

Lemma match_here_units w q prev s :
  match_here true (units w ++ q) prev s = true
  <-> exists mid post,
        s = mid +:+ post /\ same_letters w mid
        /\ match_here true q (last_unit prev mid) post = true.
Proof.
  revert prev s; induction w as [|c w IH]; intros prev s; simpl.
  - split.
    + intros H; exists EmptyString, s; repeat split; auto.
    + intros (mid & post & -> & Hm & H).
      apply same_letters_nil_l in Hm; subst mid; exact H.
  - destruct s as [|d r].
    + split; [discriminate|].
      intros (mid & post & E & Hm & _).
      destruct mid; [discriminate Hm | discriminate E].
    + rewrite andb_true_iff, IH. unfold unit_matches.
      rewrite Ascii.eqb_eq. split.
      * intros (Hc & mid & post & -> & Hm & H).
        exists (String d mid), post; repeat split; auto.
        apply same_letters_cons; auto.
      * intros (mid & post & E & Hm & H).
        destruct mid as [|d' mid]; [discriminate Hm|].
        simpl in E; injection E as -> ->.
        apply same_letters_cons in Hm as [Hc Hm].
        split; [exact Hc|]. exists mid, post; auto.
Qed.

Lemma search_from_spec ic p prev s :
  search_from ic p prev s = true
  <-> exists pre rest,
        s = pre +:+ rest /\ match_here ic p (last_unit prev pre) rest = true.
Proof.
  revert prev; induction s as [|d r IH]; intros prev; simpl.
  - rewrite orb_false_r. split.
    + intros H; exists EmptyString, EmptyString; auto.
    + intros (pre & rest & E & H).
      destruct pre; [|discriminate E]. simpl in *; subst rest; exact H.
  - rewrite orb_true_iff, IH. split.
    + intros [H | (pre & rest & -> & H)].
      * exists EmptyString, (String d r); auto.
      * exists (String d pre), rest; auto.
    + intros (pre & rest & E & H). destruct pre as [|d' pre]; simpl in *.
      * left; subst rest; exact H.
      * injection E as -> ->. right; exists pre, rest; auto.
Qed.

(** With the flag [i], lowering the input changes no answer. *)
Lemma match_here_lower p prev s :
  match_here true p (lower_unit <$> prev) (toLowerCase s)
  = match_here true p prev s.
Proof.
  revert prev s; induction p as [|a p IH]; intros prev s; [reflexivity|].
  destruct a as [|c]; simpl.
  - rewrite IH. f_equal. unfold at_boundary. f_equal.
    + destruct prev; simpl; [apply is_word_lower | reflexivity].
    + destruct s; simpl; [reflexivity | apply is_word_lower].
  - destruct s as [|d r]; simpl; [reflexivity|].
    rewrite canonicalize_lower. f_equal. apply (IH (Some d)).
Qed.

Lemma search_from_lower p prev s :
  search_from true p (lower_unit <$> prev) (toLowerCase s)
  = search_from true p prev s.
Proof.
  revert prev; induction s as [|d r IH]; intros prev; simpl.
  - f_equal. apply (match_here_lower p prev EmptyString).
  - f_equal; [apply (match_here_lower p prev (String d r)) | apply (IH (Some d))].
Qed.

Lemma test_lower re s : ignoreCase re = true -> test re (toLowerCase s) = test re s.
Proof.
  unfold test; intros ->. apply (search_from_lower (atoms re) None s).
Qed.

Lemma term_test_spec title term :
  term_test title term = true <-> occurs_at_boundary term title.
Proof.
  unfold term_test. rewrite term_RegExp_total. unfold test; simpl atoms.
  simpl ignoreCase. rewrite search_from_spec. unfold occurs_at_boundary.
  split.
  - intros (pre & rest & -> & H). simpl in H.
    apply andb_true_iff in H as [Hb H].
    rewrite <- (app_nil_r (units term)) in H.
    apply match_here_units in H as (mid & post & -> & Hm & _).
    exists pre, mid, post; auto.
  - intros (pre & mid & post & -> & Hm & Hb).
    exists pre, (mid +:+ post); split; [reflexivity|].
    simpl. rewrite Hb. simpl.
    rewrite <- (app_nil_r (units term)).
    apply match_here_units. exists mid, post; auto.
Qed.

Lemma test_whole_word w title :
  all_word w = true -> w <> EmptyString ->
  test (mkRegExp (WordBoundary :: units w ++ [WordBoundary]) true) title = true
  <-> occurs_as_word w title.
Proof.
  intros Hw Hne. unfold test; simpl atoms; simpl ignoreCase.
  rewrite search_from_spec. unfold occurs_as_word.
  assert (Hmid : forall mid, same_letters w mid ->
                 all_word mid = true /\ mid <> EmptyString).
  { intros mid Hm; split; [eapply same_letters_word; eauto|].
    intros ->. destruct w; [congruence | discriminate Hm]. }
  split.
  - intros (pre & rest & -> & H). simpl in H.
    apply andb_true_iff in H as [Hb H].
    apply match_here_units in H as (mid & post & -> & Hm & H).
    destruct (Hmid mid Hm) as [Hmw Hmne].
    simpl in H. rewrite andb_true_r in H. unfold at_boundary in Hb, H.
    rewrite word_after_app in Hb by assumption.
    rewrite word_before_last in H by assumption.
    exists pre, mid, post. repeat split; auto.
    + now destruct (word_before (last_unit None pre)).
    + now destruct (word_after post).
  - intros (pre & mid & post & -> & Hm & Hb & Ha).
    destruct (Hmid mid Hm) as [Hmw Hmne].
    exists pre, (mid +:+ post); split; [reflexivity|].
    simpl. apply andb_true_iff; split.
    + unfold at_boundary. rewrite Hb, word_after_app by assumption. reflexivity.
    + apply match_here_units. exists mid, post; repeat split; auto.
      simpl. unfold at_boundary.
      rewrite word_before_last, Ha by assumption. reflexivity.
Qed.

(** * Lemmas on the query interpreter *)

(** The loop sorts the tokens into two sub-sequences. *)
Lemma classify_loop tokens sizeTokens textTokens :
  fold_left classify tokens (sizeTokens, textTokens)
  = (sizeTokens ++ List.filter is_size_token tokens,
     textTokens ++ List.filter is_text_token tokens).
Proof.
  revert sizeTokens textTokens.
  induction tokens as [|t ts IH]; intros sz tx; simpl.
  - now rewrite !app_nil_r.
  - unfold is_text_token, is_size_token.
    destruct (is_size_number (parseFloat t)); simpl.
    + rewrite IH, <- app_assoc. reflexivity.
    + destruct (String.eqb t "taille" || String.eqb t "size"); simpl.
      * apply IH.
      * destruct (bool_decide (t ∈ IGNORED_TERMS)); simpl.
        -- apply IH.
        -- rewrite IH, <- app_assoc. reflexivity.
Qed.

Lemma terms_spec rawQuery explicitSize :
  Parsed.terms (parseQueryAndSize rawQuery explicitSize)
  = List.filter is_text_token (tokenize rawQuery).
Proof. unfold parseQueryAndSize. now rewrite classify_loop. Qed.

Lemma sizeTokens_spec rawQuery :
  sizeTokens_of rawQuery = List.filter is_size_token (tokenize rawQuery).
Proof. unfold sizeTokens_of. now rewrite classify_loop. Qed.

Lemma size_spec rawQuery explicitSize :
  Parsed.size (parseQueryAndSize rawQuery explicitSize)
  = resolveSize
    <$> given (match explicitSize with
               | Some e => Some e
               | None => head (sizeTokens_of rawQuery)
               end).
Proof.
  unfold parseQueryAndSize, sizeTokens_of.
  destruct (fold_left classify (tokenize rawQuery) ([], [])) as [sz tx].
  simpl. destruct explicitSize as [e|]; simpl.
  - now destruct (truthy e).
  - destruct (head sz) as [r|]; simpl; [now destruct (truthy r) | reflexivity].
Qed.

(** The size the interpreter resolves is never the empty string. *)
Lemma resolveSize_truthy r : truthy r = true -> truthy (resolveSize r) = true.
Proof.
  intros Hr. unfold resolveSize.
  destruct (negb (isNaN (parseFloat r)) && in_range 35 50 (parseFloat r));
    [|exact Hr].
  destruct (Math_round (parseFloat r)) as [| |q]; simpl; try exact Hr.
  destruct (Qeq_bool q (inject_Z (Qfloor q))); [|exact Hr].
  destruct (EU_TO_US !! Qfloor q) as [us|] eqn:E; simpl; [|exact Hr].
  apply elem_of_list_to_map_2 in E.
  repeat (apply elem_of_cons in E as [E|E]; [injection E as _ ->; reflexivity|]).
  inversion E.
Qed.

Lemma given_size rawQuery explicitSize :
  given (Parsed.size (parseQueryAndSize rawQuery explicitSize))
  = Parsed.size (parseQueryAndSize rawQuery explicitSize).
Proof.
  rewrite size_spec.
  set (raw := match explicitSize with
              | Some e => Some e
              | None => head (sizeTokens_of rawQuery)
              end).
  destruct (given raw) as [r|] eqn:E; [|reflexivity].
  assert (Hr : truthy r = true).
  { unfold given in E. destruct raw as [x|]; [|discriminate].
    destruct (truthy x) eqn:Hx; [|discriminate]. now injection E as <-. }
  simpl. now rewrite (resolveSize_truthy r Hr).
Qed.

(** ** The numeric prefix of a token *)






(** ** The conversion table *)

Lemma EU_TO_US_dom n : is_Some (EU_TO_US !! n) <-> 35 <= n <= 48.
Proof.
  split.
  - intros [us E]. apply elem_of_list_to_map_2 in E.
    repeat (apply elem_of_cons in E as [E|E]; [injection E as -> _; lia|]).
    inversion E.
  - intros H.
    assert (C : n = 35 \/ n = 36 \/ n = 37 \/ n = 38 \/ n = 39 \/ n = 40
                \/ n = 41 \/ n = 42 \/ n = 43 \/ n = 44 \/ n = 45 \/ n = 46
                \/ n = 47 \/ n = 48) by lia.
    repeat (destruct C as [->|C]; [vm_compute; eauto|]).
    subst n; vm_compute; eauto.
Qed.

(** ** Comparisons and rounding *)

Lemma in_range_Finite lo hi q :
  in_range lo hi (Finite q) = true
  <-> (inject_Z lo <= q)%Q /\ (q <= inject_Z hi)%Q.
Proof.
  unfold in_range, num_ge, num_le, lit.
  rewrite andb_true_iff, !Qle_bool_iff. reflexivity.
Qed.

Lemma Qfloor_unique (x : Q) (n : Z) :
  (inject_Z n <= x)%Q -> (x < inject_Z (n + 1))%Q -> Qfloor x = n.
Proof.
  intros Hlo Hhi.
  assert (H1 : n <= Qfloor x).
  { rewrite <- (Qfloor_Z n). now apply Qfloor_resp_le. }
  assert (H2 : Qfloor x < n + 1).
  { rewrite Zlt_Qlt. eapply Qle_lt_trans; [apply Qfloor_le | exact Hhi]. }
  lia.
Qed.

Lemma Math_round_nearest q n :
  nearest n q -> Math_round (Finite q) = lit n.
Proof.
  intros [Hlo Hhi]. unfold Math_round, lit. do 2 f_equal.
  apply Qfloor_unique.
  - apply (Qplus_le_l _ _ (- (1 # 2))). ring_simplify.
    ring_simplify in Hlo. exact Hlo.
  - rewrite inject_Z_plus. apply (Qplus_lt_l _ _ (- (1 # 2))).
    ring_simplify. ring_simplify in Hhi. exact Hhi.
Qed.

Lemma index_by_lit table n : index_by_number table (lit n) = table !! n.
Proof.
  unfold index_by_number, lit. rewrite Qfloor_Z.
  now rewrite (proj2 (Qeq_bool_iff _ _) (Qeq_refl _)).
Qed.

(** * Lemmas on the catalog cache and the search *)

Ltac run := unfold mbind, Async_bind, mret, Async_ret, throw; simpl.

Lemma refresh_success env w ps :
  catalog_of (upstream env (catalogFetches w)) = Some ps ->
  refresh env w
  = (Returned ps,
     mkWorld (Some ps) (clock env (clockReads w)) (S (clockReads w))
       (S (catalogFetches w))).
Proof.
  unfold catalog_of, refresh, fetch_catalog. run.
  destruct (upstream env (catalogFetches w)) as [m|st [m|d]]; try discriminate.
  simpl. destruct (status_ok st); [|discriminate].
  intros [= <-]. reflexivity.
Qed.

Lemma refresh_failure env w :
  catalog_of (upstream env (catalogFetches w)) = None ->
  exists message, refresh env w = (Thrown message, fetched w).
Proof.
  unfold catalog_of, refresh, fetch_catalog, fetched. run.
  destruct (upstream env (catalogFetches w)) as [m|st [m|d]]; simpl.
  - eauto.
  - destruct (status_ok st); simpl; eauto.
  - destruct (status_ok st); [discriminate | simpl; eauto].
Qed.

Lemma fetchAllProducts_fresh env w ps :
  productsCache w = Some ps ->
  clock env (clockReads w) - cacheTime w < CACHE_TTL_MS ->
  fetchAllProducts env w = (Returned ps, ticked w).
Proof.
  intros Hc Ht. unfold fetchAllProducts, get_productsCache. run.
  rewrite Hc. unfold Date_now, get_cacheTime. run.
  apply Z.ltb_lt in Ht. rewrite Ht. reflexivity.
Qed.

Lemma fetchAllProducts_stale env w ps :
  productsCache w = Some ps ->
  CACHE_TTL_MS <= clock env (clockReads w) - cacheTime w ->
  fetchAllProducts env w = refresh env (ticked w).
Proof.
  intros Hc Ht. unfold fetchAllProducts, get_productsCache. run.
  rewrite Hc. unfold Date_now, get_cacheTime. run.
  apply Z.ltb_ge in Ht. rewrite Ht. reflexivity.
Qed.

Lemma fetchAllProducts_empty env w :
  productsCache w = None -> fetchAllProducts env w = refresh env w.
Proof.
  intros Hc. unfold fetchAllProducts, get_productsCache. run.
  now rewrite Hc.
Qed.

(** The image never makes the search fail, and it changes no state. *)
Lemma fetchImageAsDataUrl_returns url env w :
  exists data, fetchImageAsDataUrl url env w = (Returned data, w).
Proof.
  unfold fetchImageAsDataUrl, fetch_image. run.
  destruct (image_server env _) as [|st ct b]; simpl; [eauto|].
  destruct (status_ok st); simpl; eauto.
Qed.

Lemma build_shoe_returns usSize p env w :
  exists shoe, build_shoe usSize p env w = (Returned shoe, w)
               /\ shoe_of usSize p shoe.
Proof.
  unfold build_shoe. run.
  destruct (truthy (nullish (head (Product.images p)) EmptyString)).
  - destruct (fetchImageAsDataUrl_returns
                (nullish (head (Product.images p)) EmptyString) env w)
      as [data ->].
    eexists; split; [reflexivity|]. repeat split.
  - eexists; split; [reflexivity|]. repeat split.
Qed.

Lemma all_build_shoe usSize ps env w :
  exists shoes, all (build_shoe usSize) ps env w = (Returned shoes, w)
                /\ Forall2 (shoe_of usSize) ps shoes.
Proof.
  induction ps as [|p ps (shoes & E & H)]; simpl.
  - exists []; split; [reflexivity | constructor].
  - destruct (build_shoe_returns usSize p env w) as (shoe & Es & Hs).
    exists (shoe :: shoes). run. rewrite Es, E. split; [reflexivity|].
    now constructor.
Qed.

Lemma filter_filter {A : Type} (f g : A -> bool) (l : list A) :
  List.filter g (List.filter f l) = List.filter (fun x => f x && g x) l.
Proof.
  induction l as [|x l IH]; simpl; [reflexivity|].
  destruct (f x); simpl; [destruct (g x)|]; now rewrite IH.
Qed.

Lemma select_passes terms gender usSize allProducts :
  select terms gender usSize allProducts
  = List.filter (passes terms gender usSize) allProducts.
Proof.
  unfold select, passes.
  rewrite (filter_filter (term_filter terms) (gender_filter gender)).
  rewrite filter_filter. reflexivity.
Qed.

(** A search whose catalog is at hand returns, with these fields. *)
Lemma searchAllbirds_returns query size gender env w allProducts w1 :
  fetchAllProducts env w = (Returned allProducts, w1) ->
  let parsed := parseQueryAndSize query size in
  let usSize := Parsed.size parsed in
  let matches := select (Parsed.terms parsed) gender usSize allProducts in
  exists shoes,
    searchAllbirds query size gender env w
    = (Returned
         (SearchResult.mk query
            (match usSize with Some s => Some s | None => size end)
            gender shoes (length matches) None), w1)
    /\ Forall2 (shoe_of usSize) (firstn 5 matches) shoes.
Proof.
  intros E parsed usSize matches. unfold searchAllbirds.
  unfold mbind at 1, Async_bind at 1. rewrite E.
  destruct (all_build_shoe usSize (firstn 5 matches) env w1) as (shoes & Es & H).
  exists shoes. split; [|exact H].
  unfold mbind, Async_bind. fold parsed. fold usSize. fold matches.
  rewrite Es. reflexivity.
Qed.

Lemma searchAllbirds_throws query size gender env w message w1 :
  fetchAllProducts env w = (Thrown message, w1) ->
  searchAllbirds query size gender env w = (Thrown message, w1).
Proof.
  intros E. unfold searchAllbirds. unfold mbind at 1, Async_bind at 1.
  now rewrite E.
Qed.

(** * The query interpreter: claims *)

(** C5.  A size whose number lies in [35, 50] is rounded to the nearest
    integer [n] and looked up in the table, with the size string itself
    as the fallback; the table holds exactly 35..48, so 49 and 50 fall
    back; a size whose number is outside [35, 50], or that has none,
    comes back unchanged. *)
Theorem resolveSize_converts :
  (forall size q n,
      parseFloat size = Finite q -> (35 <= q)%Q -> (q <= 50)%Q -> nearest n q ->
      35 <= n <= 50 /\ resolveSize size = nullish (EU_TO_US !! n) size)
  /\ (forall n, is_Some (EU_TO_US !! n) <-> 35 <= n <= 48)
  /\ (forall size,
        in_range 35 50 (parseFloat size) = false -> resolveSize size = size).
Proof.
  split; [|split].
  - intros size q n E Hlo Hhi Hn. split.
    + destruct Hn as [H1 H2].
      assert (A' : (inject_Z 34 < inject_Z n)%Q)
        by (change (inject_Z 34) with 34%Q; lra).
      assert (B' : (inject_Z n < inject_Z 51)%Q)
        by (change (inject_Z 51) with 51%Q; lra).
      rewrite <- Zlt_Qlt in A', B'. lia.
    + unfold resolveSize. rewrite E.
      assert (R : in_range 35 50 (Finite q) = true)
        by (apply in_range_Finite; split; assumption).
      rewrite R. simpl negb. cbn [andb].
      now rewrite (Math_round_nearest q n Hn), index_by_lit.
  - apply EU_TO_US_dom.
  - intros size H. unfold resolveSize. rewrite H.
    now rewrite andb_false_r.
Qed.

Lemma resolveSize_converts_witness :
  (parseFloat "42" = Finite 42 /\ nearest 42 42 /\ resolveSize "42" = "9")
  /\ (parseFloat "49" = Finite 49 /\ nearest 49 49 /\ resolveSize "49" = "49")
  /\ (in_range 35 50 (parseFloat "9") = false /\ resolveSize "9" = "9").
Proof.
  assert (N : forall n, nearest n (inject_Z n)).
  { intros n; split.
    - apply (Qplus_le_l _ _ (1 # 2)). ring_simplify.
      rewrite <- (Qplus_0_r (inject_Z n)) at 1. apply Qplus_le_r. discriminate.
    - rewrite <- (Qplus_0_r (inject_Z n)) at 1. apply Qplus_lt_r. reflexivity. }
  destruct resolveSize_converts as (A & _ & C).
  split; [|split].
  - split; [reflexivity | split; [apply (N 42)|]].
    exact (proj2 (A "42" 42%Q 42 eq_refl ltac:(discriminate)
                    ltac:(discriminate) (N 42))).
  - split; [reflexivity | split; [apply (N 49)|]].
    exact (proj2 (A "49" 49%Q 49 eq_refl ltac:(discriminate)
                    ltac:(discriminate) (N 49))).
  - split; [reflexivity|].
    exact (C "9" eq_refl).
Defined.

(** C6.  With an explicit size the resolved size comes from it alone,
    whatever the text holds: it is its conversion (and no size when the
    parameter is the empty string).  "runner 9" with the parameter "42"
    resolves to the conversion of "42", which is "9"; with "44" it
    resolves to "11"; its own token "9" counts only without a
    parameter. *)
Theorem explicit_size_wins :
  (forall rawQuery explicitSize,
      Parsed.size (parseQueryAndSize rawQuery (Some explicitSize))
      = resolveSize <$> given (Some explicitSize))
  /\ Parsed.size (parseQueryAndSize "runner 9" (Some "42"))
     = Some (resolveSize "42")
  /\ resolveSize "42" = "9"
  /\ Parsed.size (parseQueryAndSize "runner 9" (Some "44")) = Some "11"
  /\ Parsed.size (parseQueryAndSize "runner 9" None) = Some "9".
Proof.
  split; [|repeat split; vm_compute; reflexivity].
  intros rawQuery explicitSize. apply size_spec.
Qed.

(** C9.  A token whose number, as [parseFloat] reads it from the head
    of the token, lies in [4, 15] or [35, 50] goes to the size tokens
    and never to the terms, whatever follows its numeric prefix. *)
Theorem size_tokens_by_prefix rawQuery explicitSize token :
  In token (tokenize rawQuery) ->
  is_size_number (parseFloat token) = true ->
  In token (sizeTokens_of rawQuery)
  /\ ~ In token (Parsed.terms (parseQueryAndSize rawQuery explicitSize)).
Proof.
  intros Hin Hsz. rewrite sizeTokens_spec, terms_spec. split.
  - apply filter_In. split; [exact Hin | exact Hsz].
  - intros H. apply filter_In in H as [_ H].
    unfold is_text_token, is_size_token in H. rewrite Hsz in H. discriminate H.
Qed.

Lemma size_tokens_by_prefix_witness :
  In "4runner" (tokenize "Trail 4runner 9th")
  /\ is_size_number (parseFloat "4runner") = true
  /\ In "4runner" (sizeTokens_of "Trail 4runner 9th")
  /\ ~ In "4runner" (Parsed.terms (parseQueryAndSize "Trail 4runner 9th" None)).
Proof.
  assert (H1 : In "4runner" (tokenize "Trail 4runner 9th"))
    by (right; left; reflexivity).
  assert (H2 : is_size_number (parseFloat "4runner") = true) by reflexivity.
  split; [exact H1 | split; [exact H2|]].
  exact (size_tokens_by_prefix "Trail 4runner 9th" None "4runner" H1 H2).
Defined.

Example prefix_tokens :
  parseFloat "4runner" = lit 4 /\ parseFloat "9th" = lit 9
  /\ parseQueryAndSize "Trail 4runner 9th" None
     = Parsed.mk ["trail"] (Some "4runner").
Proof. repeat split; vm_compute; reflexivity. Qed.

(** * The catalog filter: claims *)

(** C1 as stated does not hold: the term "run" matches the title
    "running", in which "run" is not a whole word. *)
Lemma run_matches_running :
  term_filter ["run"] (Fixture.titled "running") = true
  /\ ~ occurs_as_word "run" "running".
Proof.
  split; [reflexivity|].
  intros H. apply test_whole_word in H; [|reflexivity|discriminate].
  vm_compute in H. discriminate H.
Qed.

(** C1, amended.  A product passes the term filter when every term
    occurs in its title, up to case, from a word boundary on; the
    occurrence may end inside a word.  So "run" matches "Run Club" and
    "running" alike, while "men" does not match "Women's Runner". *)
Theorem term_filter_matches_word_starts :
  (forall terms p,
      term_filter terms p = true
      <-> Forall (fun term => occurs_at_boundary term (Product.title p)) terms)
  /\ term_filter ["run"] (Fixture.titled "Run Club") = true
  /\ term_filter ["run"] (Fixture.titled "running") = true
  /\ term_filter ["men"] (Fixture.titled "Women's Runner") = false.
Proof.
  split; [|repeat split; reflexivity].
  intros terms p.
  unfold term_filter. rewrite orb_true_iff, forallb_forall, Forall_forall.
  split.
  - intros [H | H] term Hin.
    + destruct terms; [inversion Hin | discriminate H].
    + apply list_elem_of_In in Hin.
      specialize (H term Hin). unfold term_test in *.
      rewrite term_RegExp_total in *. rewrite test_lower in H by reflexivity.
      apply term_test_spec. unfold term_test.
      now rewrite term_RegExp_total.
  - intros H. right. intros term Hin. apply list_elem_of_In in Hin.
    specialize (H term Hin). apply term_test_spec in H.
    unfold term_test in *. rewrite term_RegExp_total in *.
    now rewrite test_lower by reflexivity.
Qed.

(** C7.  The gender filter for "men" passes the titles in which "men"
    is a whole word and "women" is not; for "women", those in which
    "women" is a whole word; the products the search keeps are those of
    the catalog that pass it and the two other tests.  "Men's Runner"
    passes for "men", "Women's Runner" does not. *)
Theorem gender_filter_whole_words :
  (forall p,
      gender_filter (Some men) p = true
      <-> occurs_as_word "men" (Product.title p)
          /\ ~ occurs_as_word "women" (Product.title p))
  /\ (forall p,
        gender_filter (Some women) p = true
        <-> occurs_as_word "women" (Product.title p))
  /\ (forall p, gender_filter None p = true)
  /\ (forall terms gender usSize allProducts p,
        In p (select terms gender usSize allProducts)
        <-> In p allProducts /\ term_filter terms p = true
            /\ gender_filter gender p = true /\ size_filter usSize p = true)
  /\ gender_filter (Some men) (Fixture.titled "Men's Runner") = true
  /\ gender_filter (Some men) (Fixture.titled "Women's Runner") = false
  /\ gender_filter (Some women) (Fixture.titled "Women's Runner") = true.
Proof.
  assert (M : forall t, test re_men t = true <-> occurs_as_word "men" t)
    by (intros t; apply test_whole_word; [reflexivity | discriminate]).
  assert (W : forall t, test re_women t = true <-> occurs_as_word "women" t)
    by (intros t; apply test_whole_word; [reflexivity | discriminate]).
  split; [|split; [|split; [|split; [|repeat split; reflexivity]]]].
  - intros p. simpl. rewrite andb_true_iff, negb_true_iff, M, <- W.
    now rewrite not_true_iff_false.
  - intros p. simpl. apply W.
  - reflexivity.
  - intros terms gender usSize allProducts p.
    rewrite select_passes, filter_In. unfold passes.
    rewrite !andb_true_iff. tauto.
Qed.

(** * The catalog cache: claims *)

Lemma fetchAllProducts_due env w :
  refresh_due env w ->
  exists w0, fetchAllProducts env w = refresh env w0
             /\ productsCache w0 = productsCache w
             /\ cacheTime w0 = cacheTime w
             /\ catalogFetches w0 = catalogFetches w
             /\ (clockReads w <= clockReads w0)%nat.
Proof.
  unfold refresh_due. intros H. destruct (productsCache w) as [ps|] eqn:Hc.
  - destruct H as [H|H]; [discriminate H|].
    exists (ticked w). rewrite (fetchAllProducts_stale env w ps Hc H).
    simpl. repeat split; auto.
  - exists w. rewrite (fetchAllProducts_empty env w Hc). repeat split; auto.
Qed.

(** C3 as stated does not hold: with no snapshot and an upstream
    endpoint that answers 500, the call makes its one request and
    throws, and neither the snapshot nor the timestamp is replaced. *)
Lemma failed_refresh_replaces_nothing :
  refresh_due Fixture.failing initial
  /\ fetchAllProducts Fixture.failing initial
     = (Thrown "HTTP 500: Failed to fetch Allbirds products",
        mkWorld None 0 0 1).
Proof. split; [left; reflexivity | reflexivity]. Qed.

(** C3, amended.  A call with a snapshot younger than 5 minutes makes
    no upstream request and returns that snapshot, which stays with its
    timestamp.  A call with no snapshot, or with one of 5 minutes or
    more, makes exactly one upstream request; when the request succeeds
    the call returns the new list and replaces the snapshot by it and
    the timestamp by a reading of the clock made after the request;
    when it fails the call throws and leaves both as they were. *)
Theorem cache_policy env w :
  (forall ps,
      productsCache w = Some ps ->
      clock env (clockReads w) - cacheTime w < CACHE_TTL_MS ->
      fetchAllProducts env w = (Returned ps, ticked w))
  /\ (refresh_due env w ->
      let (o, w') := fetchAllProducts env w in
      catalogFetches w' = S (catalogFetches w)
      /\ match catalog_of (upstream env (catalogFetches w)) with
         | Some ps =>
             o = Returned ps /\ productsCache w' = Some ps
             /\ cacheTime w' = clock env (pred (clockReads w'))
             /\ (clockReads w < clockReads w')%nat
         | None =>
             (exists message, o = Thrown message)
             /\ productsCache w' = productsCache w
             /\ cacheTime w' = cacheTime w
         end).
Proof.
  split; [apply fetchAllProducts_fresh|].
  intros H. destruct (fetchAllProducts_due env w H)
    as (w0 & -> & Hc & Ht & Hf & Hr).
  destruct (catalog_of (upstream env (catalogFetches w))) as [ps|] eqn:E;
    rewrite <- Hf in E.
  - rewrite (refresh_success env w0 ps E). simpl.
    rewrite Hf. repeat split; auto. lia.
  - destruct (refresh_failure env w0 E) as [message ->]. simpl.
    rewrite Hf. repeat split; eauto.
Qed.

Lemma cache_policy_witness :
  (productsCache (Fixture.cached Fixture.catalog) = Some Fixture.catalog
   /\ clock Fixture.failing 1 - 0 < CACHE_TTL_MS
   /\ fetchAllProducts Fixture.failing (Fixture.cached Fixture.catalog)
      = (Returned Fixture.catalog, mkWorld (Some Fixture.catalog) 0 2 1))
  /\ (refresh_due (Fixture.serving Fixture.catalog) initial
      /\ let (o, w') := fetchAllProducts (Fixture.serving Fixture.catalog)
                          initial in
         catalogFetches w' = 1%nat
         /\ o = Returned Fixture.catalog
         /\ productsCache w' = Some Fixture.catalog
         /\ cacheTime w'
            = clock (Fixture.serving Fixture.catalog) (pred (clockReads w'))
         /\ (0 < clockReads w')%nat).
Proof.
  split.
  - split; [reflexivity | split; [reflexivity|]].
    exact (proj1 (cache_policy Fixture.failing (Fixture.cached Fixture.catalog))
             Fixture.catalog eq_refl eq_refl).
  - assert (D : refresh_due (Fixture.serving Fixture.catalog) initial)
      by (left; reflexivity).
    split; [exact D|].
    exact (proj2 (cache_policy (Fixture.serving Fixture.catalog) initial) D).
Defined.

(** * The tool: claims *)

(** C2.  When a refresh is due and the catalog fetch fails (transport
    failure or a status that is not a success), the tool answers with
    the input echoed, no shoes, a total of 0 and the message of the
    failure as its error.  The tool is a total function into its
    answers: whatever the search does, it answers either a result with
    no error or that error shape. *)
Theorem catalog_failure_is_data :
  (forall query size gender env w,
      refresh_due env w ->
      fetch_fails (upstream env (catalogFetches w)) ->
      exists message w',
        search_allbirds_shoes query size gender env w
        = (mkCallToolResult
             (SearchResult.mk query size gender [] 0%nat (Some message)) true,
           w'))
  /\ (forall query size gender env w,
        let answer := fst (search_allbirds_shoes query size gender env w) in
        (isError answer = false
         /\ SearchResult.error (structuredContent answer) = None)
        \/ (isError answer = true
            /\ exists message,
                structuredContent answer
                = SearchResult.mk query size gender [] 0%nat (Some message))).
Proof.
  split.
  - intros query size gender env w Hdue Hfail.
    destruct (fetchAllProducts_due env w Hdue) as (w0 & E & _ & _ & Hf & _).
    assert (N : catalog_of (upstream env (catalogFetches w0)) = None).
    { rewrite Hf. unfold fetch_fails, catalog_of in *.
      destruct (upstream env (catalogFetches w)) as [m|st [m|d]]; auto.
      now rewrite Hfail. }
    destruct (refresh_failure env w0 N) as [message Er].
    exists message, (fetched w0). unfold search_allbirds_shoes.
    rewrite (searchAllbirds_throws query size gender env w message (fetched w0));
      [reflexivity | congruence].
  - intros query size gender env w. unfold search_allbirds_shoes.
    destruct (fetchAllProducts env w) as [[allProducts|message] w1] eqn:E.
    + destruct (searchAllbirds_returns query size gender env w allProducts w1 E)
        as (shoes & -> & _).
      left. split; reflexivity.
    + rewrite (searchAllbirds_throws query size gender env w message w1 E).
      right. split; [reflexivity | eauto].
Qed.

Lemma catalog_failure_is_data_witness :
  refresh_due Fixture.failing initial
  /\ fetch_fails (upstream Fixture.failing (catalogFetches initial))
  /\ exists message w',
       search_allbirds_shoes "wool runner" (Some "42") (Some men)
         Fixture.failing initial
       = (mkCallToolResult
            (SearchResult.mk "wool runner" (Some "42") (Some men) [] 0%nat
               (Some message)) true,
          w').
Proof.
  assert (D : refresh_due Fixture.failing initial) by (left; reflexivity).
  assert (F : fetch_fails (upstream Fixture.failing (catalogFetches initial)))
    by reflexivity.
  split; [exact D | split; [exact F|]].
  exact (proj1 catalog_failure_is_data "wool runner" (Some "42") (Some men)
           Fixture.failing initial D F).
Defined.

(** * The search: claims *)

(** C4.  When the catalog is at hand the search returns; its total is
    the number of products of the catalog that pass the term, gender
    and size tests, it returns at most 5 shoes, the smaller of the
    total and 5, and they are made, one for one and in the order of the
    catalog, from the first products that pass. *)
Theorem totalFound_before_truncation query size gender env w allProducts w1 :
  fetchAllProducts env w = (Returned allProducts, w1) ->
  let parsed := parseQueryAndSize query size in
  let matching :=
    List.filter (passes (Parsed.terms parsed) gender (Parsed.size parsed))
      allProducts in
  exists result,
    searchAllbirds query size gender env w = (Returned result, w1)
    /\ SearchResult.totalFound result = length matching
    /\ (length (SearchResult.shoes result) <= 5)%nat
    /\ length (SearchResult.shoes result)
       = Nat.min (SearchResult.totalFound result) 5
    /\ Forall2 (shoe_of (Parsed.size parsed)) (firstn 5 matching)
         (SearchResult.shoes result)
    /\ SearchResult.error result = None.
Proof.
  intros E parsed matching.
  destruct (searchAllbirds_returns query size gender env w allProducts w1 E)
    as (shoes & Es & H).
  fold parsed in Es, H. rewrite select_passes in Es, H. fold matching in Es, H.
  eexists; split; [exact Es|]. simpl.
  assert (L : length shoes = length (firstn 5 matching))
    by (symmetry; eapply Forall2_length; exact H).
  rewrite length_firstn in L.
  repeat split; auto; lia.
Qed.

Lemma totalFound_before_truncation_witness :
  fetchAllProducts (Fixture.serving Fixture.catalog) initial
  = (Returned Fixture.catalog, mkWorld (Some Fixture.catalog) 0 1 1)
  /\ exists result,
       searchAllbirds "Runner shoes" None None
         (Fixture.serving Fixture.catalog) initial
       = (Returned result, mkWorld (Some Fixture.catalog) 0 1 1)
       /\ SearchResult.totalFound result = 7%nat
       /\ (length (SearchResult.shoes result) <= 5)%nat
       /\ length (SearchResult.shoes result)
          = Nat.min (SearchResult.totalFound result) 5
       /\ Forall2 (shoe_of None)
            [ Fixture.runner "1"; Fixture.runner "2"; Fixture.runner "3";
              Fixture.runner "4"; Fixture.runner "5" ]
            (SearchResult.shoes result)
       /\ SearchResult.error result = None.
Proof.
  split; [reflexivity|].
  exact (totalFound_before_truncation "Runner shoes" None None
           (Fixture.serving Fixture.catalog) initial Fixture.catalog
           (mkWorld (Some Fixture.catalog) 0 1 1) eq_refl).
Defined.

(** C8.  The size of the answer depends on the outcome: when the
    search returns it is the resolved size (the raw parameter when none
    was resolved), when the search throws it is the raw parameter.
    The parameter "42" is answered as "9" by a search that returns and
    as "42" by one that fails. *)
Theorem size_field_depends_on_outcome :
  (forall query size gender env w,
      let answer := fst (search_allbirds_shoes query size gender env w) in
      match fst (searchAllbirds query size gender env w) with
      | Returned _ =>
          SearchResult.size (structuredContent answer)
          = match Parsed.size (parseQueryAndSize query size) with
            | Some usSize => Some usSize
            | None => size
            end
      | Thrown _ => SearchResult.size (structuredContent answer) = size
      end)
  /\ SearchResult.size
       (structuredContent
          (fst (search_allbirds_shoes "runner" (Some "42") None
                  (Fixture.serving Fixture.catalog) initial)))
     = Some "9"
  /\ SearchResult.size
       (structuredContent
          (fst (search_allbirds_shoes "runner" (Some "42") None
                  Fixture.failing initial)))
     = Some "42".
Proof.
  split; [|split; reflexivity].
  intros query size gender env w. unfold search_allbirds_shoes.
  destruct (fetchAllProducts env w) as [[allProducts|message] w1] eqn:E.
  - destruct (searchAllbirds_returns query size gender env w allProducts w1 E)
      as (shoes & -> & _).
    reflexivity.
  - rewrite (searchAllbirds_throws query size gender env w message w1 E).
    reflexivity.
Qed.

Lemma find_first {A : Type} (f : A -> bool) (l : list A) (x : A) :
  List.find f l = Some x
  <-> exists before after,
        l = before ++ x :: after /\ f x = true
        /\ Forall (fun y => f y = false) before.
Proof.
  induction l as [|y l IH]; simpl.
  - split; [discriminate|].
    intros (before & after & E & _). destruct before; discriminate E.
  - destruct (f y) eqn:Fy.
    + split.
      * intros [= <-]. exists [], l. repeat split; auto.
      * intros (before & after & E & Fx & Hb).
        destruct before as [|b before]; simpl in E; injection E as -> ->.
        -- reflexivity.
        -- inversion Hb; congruence.
    + rewrite IH. split.
      * intros (before & after & -> & Fx & Hb).
        exists (y :: before), after. repeat split; auto.
      * intros (before & after & E & Fx & Hb).
        destruct before as [|b before]; simpl in E; injection E as -> ->.
        -- congruence.
        -- exists before, after. inversion Hb; auto.
Qed.

(** C10.  With a resolved size [s], a product passes the size filter
    when some variant has the title [s], up to case, and an
    availability that is not [false]; the variant that gives the price
    of its shoe is the first variant with the title [s], available or
    not.  The two can differ, and then the shoe shows the price of a
    variant that is not available. *)
Theorem price_variant_ignores_availability usSize s p :
  given usSize = Some s ->
  (size_filter usSize p = true
   <-> exists v, In v (Product.variants p) /\ title_is s v = true
                 /\ Variant.available v <> Some false)
  /\ (forall v,
        targetVariant usSize p = Some v
        <-> exists before after,
              Product.variants p = before ++ v :: after
              /\ title_is s v = true
              /\ Forall (fun v' => title_is s v' = false) before)
  /\ (forall env w,
        exists shoe,
          build_shoe usSize p env w = (Returned shoe, w)
          /\ Shoe.price shoe = price_label (targetVariant usSize p)).
Proof.
  intros G. split; [|split].
  - unfold size_filter. rewrite G, existsb_exists. split.
    + intros (v & Hin & H). apply andb_true_iff in H as [Ht Ha].
      exists v. repeat split; auto.
      intros Hf. rewrite Hf in Ha. discriminate Ha.
    + intros (v & Hin & Ht & Ha). exists v. split; [exact Hin|].
      rewrite Ht. simpl. destruct (Variant.available v) as [[|]|]; auto.
  - intros v. unfold targetVariant. rewrite G. apply find_first.
  - intros env w. destruct (build_shoe_returns usSize p env w)
      as (shoe & E & _ & _ & Hp & _).
    exists shoe. split; assumption.
Qed.

Lemma price_variant_ignores_availability_witness :
  given (Some "9") = Some "9"
  /\ size_filter (Some "9") Fixture.two_nines = true
  /\ targetVariant (Some "9") Fixture.two_nines = Some Fixture.sold_out_9
  /\ Variant.available Fixture.sold_out_9 = Some false
  /\ exists shoe,
       build_shoe (Some "9") Fixture.two_nines Fixture.failing initial
       = (Returned shoe, initial)
       /\ Shoe.price shoe = "$100".
Proof.
  destruct (price_variant_ignores_availability (Some "9") "9"
              Fixture.two_nines eq_refl) as (F & T & B).
  split; [reflexivity|]. split; [|split; [|split; [reflexivity|]]].
  - apply F. exists Fixture.on_sale_9.
    split; [right; left; reflexivity | split; [reflexivity | discriminate]].
  - apply T. exists [], [Fixture.on_sale_9].
    split; [reflexivity | split; [reflexivity | constructor]].
  - destruct (B Fixture.failing initial) as (shoe & E & Hp).
    exists shoe. split; [exact E|]. rewrite Hp. reflexivity.
Defined.

(** * The query interpreter: further properties *)

Lemma all_units_snoc P cur c :
  all_units P cur = true -> P c = true ->
  all_units P (cur +:+ String c EmptyString) = true.
Proof.
  intros H Hc. induction cur as [|d cur IH]; simpl in *.
  - now rewrite Hc.
  - apply andb_true_iff in H as [Hd H]. now rewrite Hd, IH.
Qed.

Lemma lower_unit_fixed c : Ascii.eqb (lower_unit (lower_unit c)) (lower_unit c) = true.
Proof. each_unit c; reflexivity. Qed.

(** The pieces of a lowered string hold token units only. *)
Lemma split_ws_from_units cur in_run s :
  all_units token_unit cur = true ->
  Forall (fun t => all_units token_unit t = true)
    (split_ws_from cur in_run (toLowerCase s)).
Proof.
  revert cur in_run. induction s as [|c r IH]; intros cur in_run Hcur; simpl.
  - constructor; [exact Hcur | constructor].
  - destruct (is_space (lower_unit c)) eqn:Hs.
    + destruct in_run; [apply IH; exact Hcur|].
      constructor; [exact Hcur | apply IH; reflexivity].
    + apply IH. apply all_units_snoc; [exact Hcur|].
      unfold token_unit. now rewrite Hs, lower_unit_fixed.
Qed.

Lemma all_units_lowered t : all_units token_unit t = true -> toLowerCase t = t.
Proof.
  unfold toLowerCase. induction t as [|c r IH]; simpl; [reflexivity|].
  intros H. apply andb_true_iff in H as [Hc Hr].
  unfold token_unit in Hc. apply andb_true_iff in Hc as [_ Hc].
  apply Ascii.eqb_eq in Hc. now rewrite Hc, IH.
Qed.

Lemma all_units_no_space t :
  all_units token_unit t = true -> all_units (fun c => negb (is_space c)) t = true.
Proof.
  induction t as [|c r IH]; simpl; [reflexivity|].
  intros H. apply andb_true_iff in H as [Hc Hr].
  unfold token_unit in Hc. apply andb_true_iff in Hc as [Hc _].
  now rewrite Hc, IH.
Qed.

Lemma tokenize_tokens rawQuery token :
  In token (tokenize rawQuery) ->
  truthy token = true /\ all_units token_unit token = true.
Proof.
  unfold tokenize. intros H. apply filter_In in H as [Hin Ht].
  split; [exact Ht|].
  pose proof (split_ws_from_units EmptyString false rawQuery eq_refl) as F.
  rewrite Forall_forall in F. apply F. apply list_elem_of_In. exact Hin.
Qed.

Lemma filter_sublist {A : Type} (f : A -> bool) (l : list A) :
  sublist (List.filter f l) l.
Proof.
  induction l as [|x l IH]; simpl; [constructor|].
  destruct (f x); now constructor.
Qed.

(** X1.  The terms are tokens of the query in their order, and each of
    them is not empty, holds no white space, is in lower case, is not
    a connector word, not an ignored word and not a size. *)
Theorem terms_are_clean rawQuery explicitSize :
  sublist (Parsed.terms (parseQueryAndSize rawQuery explicitSize))
    (tokenize rawQuery)
  /\ forall term,
       In term (Parsed.terms (parseQueryAndSize rawQuery explicitSize)) ->
       term <> EmptyString
       /\ all_units (fun c => negb (is_space c)) term = true
       /\ toLowerCase term = term
       /\ term <> "size" /\ term <> "taille"
       /\ (term ∉ IGNORED_TERMS)
       /\ is_size_number (parseFloat term) = false.
Proof.
  rewrite terms_spec. split; [apply filter_sublist|].
  intros term H. apply filter_In in H as [Hin H].
  destruct (tokenize_tokens rawQuery term Hin) as [Ht Hu].
  unfold is_text_token, is_size_token in H.
  apply andb_true_iff in H as [H Hi]. apply andb_true_iff in H as [Hs Hc].
  apply negb_true_iff in Hs, Hc, Hi. apply orb_false_iff in Hc as [Hc1 Hc2].
  apply String.eqb_neq in Hc1, Hc2. apply bool_decide_eq_false in Hi.
  repeat split; auto.
  - intros ->. discriminate Ht.
  - now apply all_units_no_space.
  - now apply all_units_lowered.
Qed.

Lemma terms_are_clean_witness :
  In "wool" (Parsed.terms (parseQueryAndSize "  Wool RUNNER taille 42 " None))
  /\ "wool" <> EmptyString
  /\ toLowerCase "wool" = "wool"
  /\ is_size_number (parseFloat "wool") = false.
Proof.
  assert (H : In "wool"
                (Parsed.terms (parseQueryAndSize "  Wool RUNNER taille 42 " None)))
    by (left; reflexivity).
  split; [exact H|].
  destruct (proj2 (terms_are_clean "  Wool RUNNER taille 42 " None) "wool" H)
    as (A & _ & B & _ & _ & _ & C).
  repeat split; assumption.
Defined.

(** X2.  Without a size parameter the resolved size is the conversion
    of the first size token of the query, and there is none when the
    query has no size token. *)
Theorem first_size_token_wins rawQuery :
  Parsed.size (parseQueryAndSize rawQuery None)
  = resolveSize <$> head (List.filter is_size_token (tokenize rawQuery)).
Proof.
  rewrite size_spec, sizeTokens_spec.
  destruct (List.filter is_size_token (tokenize rawQuery)) as [|t ts] eqn:E;
    [reflexivity|].
  assert (Hin : In t (tokenize rawQuery)).
  { assert (H : In t (List.filter is_size_token (tokenize rawQuery)))
      by (rewrite E; left; reflexivity).
    now apply filter_In in H as [H _]. }
  destruct (tokenize_tokens rawQuery t Hin) as [Ht _].
  simpl. now rewrite Ht.
Qed.

(** X3.  Whatever the query and the parameter, the resolved size is
    never the empty string: a size that is present passes the test
    [if (usSize)]. *)
Theorem resolved_size_not_empty rawQuery explicitSize :
  Parsed.size (parseQueryAndSize rawQuery explicitSize) <> Some EmptyString.
Proof.
  intros H. pose proof (given_size rawQuery explicitSize) as G.
  rewrite H in G. discriminate G.
Qed.

(** X4.  Converting a converted size changes nothing: no US size of
    the table is itself in the EU range. *)
Theorem resolveSize_idempotent size :
  resolveSize (resolveSize size) = resolveSize size.
Proof.
  assert (H : resolveSize size = size
              \/ exists n, EU_TO_US !! n = Some (resolveSize size)).
  { unfold resolveSize.
    destruct (negb (isNaN (parseFloat size)) && in_range 35 50 (parseFloat size));
      [|now left].
    destruct (Math_round (parseFloat size)) as [| |q]; simpl; try now left.
    destruct (Qeq_bool q (inject_Z (Qfloor q))); [|now left].
    destruct (EU_TO_US !! Qfloor q) as [us|] eqn:E; simpl; [|now left].
    right. now exists (Qfloor q). }
  destruct H as [H | [n H]]; [now rewrite !H|].
  apply elem_of_list_to_map_2 in H.
  repeat (apply elem_of_cons in H as [H|H];
          [injection H as _ ->; reflexivity|]).
  inversion H.
Qed.



(** * The catalog filter: further properties *)

Lemma same_letters_lower s : same_letters (toLowerCase s) s.
Proof.
  unfold same_letters, toLowerCase. induction s as [|c r IH]; simpl;
    [reflexivity|]. now rewrite canonicalize_lower, IH.
Qed.

Lemma same_letters_heads s s' :
  same_letters s s' -> word_after s = word_after s'.
Proof.
  destruct s as [|c r], s' as [|d r']; try discriminate; [reflexivity|].
  intros H. apply same_letters_cons in H as [H _]. simpl.
  now rewrite <- (is_word_canonicalize c), H, is_word_canonicalize.
Qed.

Lemma match_here_same p prev prev' s s' :
  word_before prev = word_before prev' -> same_letters s s' ->
  match_here true p prev s = match_here true p prev' s'.
Proof.
  revert prev prev' s s'. induction p as [|a p IH]; intros prev prev' s s' Hp Hs;
    [reflexivity|].
  destruct a as [|c]; simpl.
  - unfold at_boundary. rewrite Hp, (same_letters_heads s s' Hs).
    f_equal. now apply IH.
  - destruct s as [|d r], s' as [|d' r']; try discriminate Hs; [reflexivity|].
    apply same_letters_cons in Hs as [Hd Hr]. rewrite Hd. f_equal.
    apply IH; [|exact Hr]. simpl.
    now rewrite <- (is_word_canonicalize d), Hd, is_word_canonicalize.
Qed.

Lemma search_from_same p prev prev' s s' :
  word_before prev = word_before prev' -> same_letters s s' ->
  search_from true p prev s = search_from true p prev' s'.
Proof.
  revert prev prev' s'. induction s as [|d r IH]; intros prev prev' s' Hp Hs.
  - destruct s'; [|discriminate Hs]. simpl. f_equal.
    now apply match_here_same.
  - destruct s' as [|d' r']; [discriminate Hs|].
    pose proof Hs as Hs'. apply same_letters_cons in Hs' as [Hd Hr]. simpl.
    f_equal; [now apply match_here_same|].
    apply IH; [|exact Hr]. simpl.
    now rewrite <- (is_word_canonicalize d), Hd, is_word_canonicalize.
Qed.

Lemma forallb_same {A : Type} (f g : A -> bool) (l : list A) :
  (forall x, f x = g x) -> forallb f l = forallb g l.
Proof.
  intros H. induction l as [|x l IH]; simpl; [reflexivity|].
  now rewrite H, IH.
Qed.

(** X6.  The term filter and the gender filter read the title up to
    case: two products whose titles differ by case only pass the same
    terms and the same gender. *)
Theorem filters_ignore_title_case terms gender p p' :
  same_letters (Product.title p) (Product.title p') ->
  term_filter terms p = term_filter terms p'
  /\ gender_filter gender p = gender_filter gender p'.
Proof.
  intros H. split.
  - unfold term_filter. f_equal. apply forallb_same. intros term.
    unfold term_test. rewrite term_RegExp_total. unfold test. simpl.
    apply search_from_same; [reflexivity|].
    unfold same_letters in *.
    now rewrite (same_letters_lower (Product.title p)),
      (same_letters_lower (Product.title p')).
  - assert (T : forall re, ignoreCase re = true ->
                test re (Product.title p) = test re (Product.title p')).
    { intros re Hi. unfold test. rewrite Hi.
      now apply search_from_same. }
    destruct gender as [[|]|]; simpl; [|apply T|]; try reflexivity.
    now rewrite (T re_men eq_refl), (T re_women eq_refl).
Qed.

Lemma filters_ignore_title_case_witness :
  same_letters "MEN'S WOOL RUNNER" "Men's Wool Runner"
  /\ term_filter ["wool"; "run"] (Fixture.titled "MEN'S WOOL RUNNER")
     = term_filter ["wool"; "run"] (Fixture.titled "Men's Wool Runner")
  /\ gender_filter (Some men) (Fixture.titled "MEN'S WOOL RUNNER")
     = gender_filter (Some men) (Fixture.titled "Men's Wool Runner").
Proof.
  split; [reflexivity|].
  exact (filters_ignore_title_case ["wool"; "run"] (Some men)
           (Fixture.titled "MEN'S WOOL RUNNER")
           (Fixture.titled "Men's Wool Runner") eq_refl).
Defined.


(** X8.  A term that begins with a unit that is not a word unit
    matches only just after a word unit: never at the start of the
    title, never after white space or punctuation. *)
Theorem nonword_term_needs_word_before title c r :
  is_word c = false ->
  term_test title (String c r) = true ->
  exists pre mid post,
    title = pre +:+ mid +:+ post /\ same_letters (String c r) mid
    /\ word_before (last_unit None pre) = true /\ pre <> EmptyString.
Proof.
  intros Hc H. apply term_test_spec in H as (pre & mid & post & E & Hm & Hb).
  exists pre, mid, post.
  assert (Hw : word_before (last_unit None pre) = true).
  { unfold at_boundary in Hb.
    rewrite <- (same_letters_heads (String c r +:+ post) (mid +:+ post)) in Hb.
    - simpl in Hb. rewrite Hc in Hb.
      now destruct (word_before (last_unit None pre)).
    - destruct mid as [|d mid]; [discriminate Hm|].
      apply same_letters_cons in Hm as [Hd Hm].
      unfold same_letters in *. simpl. rewrite Hd. f_equal.
      clear -Hm. revert mid Hm. induction r as [|x r IH]; intros [|y mid] Hm;
        try discriminate Hm; [reflexivity|].
      simpl in *. injection Hm as Hx Hm. rewrite Hx. f_equal. now apply IH. }
  repeat split; auto. intros ->. discriminate Hw.
Qed.

Lemma nonword_term_needs_word_before_witness :
  is_word "'" = false
  /\ term_test "men's runner" "'s" = true
  /\ term_test "'s runner" "'s" = false
  /\ exists pre mid post,
       "men's runner" = pre +:+ mid +:+ post /\ same_letters "'s" mid
       /\ word_before (last_unit None pre) = true /\ pre <> EmptyString.
Proof.
  split; [reflexivity | split; [reflexivity | split; [reflexivity|]]].
  exact (nonword_term_needs_word_before "men's runner" "'" "s" eq_refl eq_refl).
Defined.

(** X9.  A product that passes the size filter has a target variant:
    the price of its shoe comes from a variant whose title is the
    size, never from a variant of another size. *)
Theorem size_filter_gives_target usSize s p :
  given usSize = Some s ->
  size_filter usSize p = true ->
  exists v, targetVariant usSize p = Some v
            /\ In v (Product.variants p) /\ title_is s v = true.
Proof.
  unfold size_filter, targetVariant. intros ->. intros H.
  apply existsb_exists in H as (v & Hin & Hv).
  apply andb_true_iff in Hv as [Hv _].
  destruct (List.find (title_is s) (Product.variants p)) as [v'|] eqn:E.
  - apply find_some in E as [Hin' Hv']. now exists v'.
  - apply (find_none _ _ E) in Hin. congruence.
Qed.

Lemma size_filter_gives_target_witness :
  given (Some "9") = Some "9"
  /\ size_filter (Some "9") Fixture.two_nines = true
  /\ exists v, targetVariant (Some "9") Fixture.two_nines = Some v
               /\ In v (Product.variants Fixture.two_nines)
               /\ title_is "9" v = true.
Proof.
  split; [reflexivity | split; [reflexivity|]].
  exact (size_filter_gives_target (Some "9") "9" Fixture.two_nines
           eq_refl eq_refl).
Defined.

Lemma filter_sublist_impl {A : Type} (f g : A -> bool) (l : list A) :
  (forall x, f x = true -> g x = true) ->
  sublist (List.filter f l) (List.filter g l).
Proof.
  intros H. induction l as [|x l IH]; simpl; [constructor|].
  destruct (f x) eqn:F.
  - rewrite (H x F). now constructor.
  - destruct (g x); [now constructor | exact IH].
Qed.

(** X10.  A gender or a size only narrows a search: what the three
    filters keep is, in the same order, among what the terms alone
    keep, which is among the catalog; so it is not longer. *)
Theorem narrowing_keeps_order terms gender usSize allProducts :
  sublist (select terms gender usSize allProducts)
    (select terms None None allProducts)
  /\ sublist (select terms None None allProducts) allProducts
  /\ (length (select terms gender usSize allProducts)
      <= length (select terms None None allProducts)
      <= length allProducts)%nat.
Proof.
  rewrite !select_passes.
  assert (A : sublist (List.filter (passes terms gender usSize) allProducts)
                (List.filter (passes terms None None) allProducts)).
  { apply filter_sublist_impl. intros p H. unfold passes in *.
    apply andb_true_iff in H as [H _]. apply andb_true_iff in H as [H _].
    now rewrite H. }
  assert (B : sublist (List.filter (passes terms None None) allProducts)
                allProducts) by apply filter_sublist.
  split; [exact A | split; [exact B|]].
  split; now apply sublist_length.
Qed.

(** * The catalog cache and the tool: further properties *)

(** A call finds the snapshot fresh, or a refresh is due. *)
Lemma fresh_or_due env w :
  (exists ps, productsCache w = Some ps
              /\ clock env (clockReads w) - cacheTime w < CACHE_TTL_MS)
  \/ refresh_due env w.
Proof.
  unfold refresh_due. destruct (productsCache w) as [ps|]; [|now right; left].
  destruct (Z.lt_ge_cases (clock env (clockReads w) - cacheTime w) CACHE_TTL_MS).
  - left. now exists ps.
  - right. now right.
Qed.

(** What a call of [fetchAllProducts] does, in every case. *)
Lemma fetchAllProducts_cases env w :
  (exists ps, productsCache w = Some ps
              /\ clock env (clockReads w) - cacheTime w < CACHE_TTL_MS
              /\ fetchAllProducts env w = (Returned ps, ticked w))
  \/ (refresh_due env w
      /\ exists w0,
           productsCache w0 = productsCache w /\ cacheTime w0 = cacheTime w
           /\ catalogFetches w0 = catalogFetches w
           /\ (clockReads w <= clockReads w0 <= S (clockReads w))%nat
           /\ ((exists ps,
                  catalog_of (upstream env (catalogFetches w)) = Some ps
                  /\ fetchAllProducts env w
                     = (Returned ps,
                        mkWorld (Some ps) (clock env (clockReads w0))
                          (S (clockReads w0)) (S (catalogFetches w))))
               \/ (catalog_of (upstream env (catalogFetches w)) = None
                   /\ exists message,
                        fetchAllProducts env w = (Thrown message, fetched w0)))).
Proof.
  destruct (fresh_or_due env w) as [(ps & Hc & Ht) | Hdue].
  - left. exists ps. repeat split; auto. now apply fetchAllProducts_fresh.
  - right. split; [exact Hdue|].
    assert (W : exists w0, fetchAllProducts env w = refresh env w0
                /\ productsCache w0 = productsCache w
                /\ cacheTime w0 = cacheTime w
                /\ catalogFetches w0 = catalogFetches w
                /\ (clockReads w <= clockReads w0 <= S (clockReads w))%nat).
    { unfold refresh_due in Hdue.
      destruct (productsCache w) as [ps|] eqn:Hc.
      - destruct Hdue as [Hdue|Hdue]; [discriminate Hdue|].
        exists (ticked w). rewrite (fetchAllProducts_stale env w ps Hc Hdue).
        simpl. repeat split; auto.
      - exists w. rewrite (fetchAllProducts_empty env w Hc).
        repeat split; auto. }
    destruct W as (w0 & E & Hc & Ht & Hf & Hr).
    exists w0. repeat split; auto; try lia.
    destruct (catalog_of (upstream env (catalogFetches w))) as [ps|] eqn:C;
      rewrite <- Hf in C.
    + left. exists ps. split; [reflexivity|].
      rewrite E, (refresh_success env w0 ps C), Hf. reflexivity.
    + right. split; [reflexivity|].
      destruct (refresh_failure env w0 C) as [message Er].
      exists message. now rewrite E.
Qed.

(** The tool changes the state as its one call of [fetchAllProducts]
    does, and fails when that call throws. *)
Lemma tool_follows_fetch query size gender env w :
  snd (search_allbirds_shoes query size gender env w)
  = snd (fetchAllProducts env w)
  /\ isError (fst (search_allbirds_shoes query size gender env w))
     = match fst (fetchAllProducts env w) with
       | Returned _ => false
       | Thrown _ => true
       end.
Proof.
  unfold search_allbirds_shoes.
  destruct (fetchAllProducts env w) as [[allProducts|message] w1] eqn:E.
  - destruct (searchAllbirds_returns query size gender env w allProducts w1 E)
      as (shoes & -> & _). split; reflexivity.
  - rewrite (searchAllbirds_throws query size gender env w message w1 E).
    split; reflexivity.
Qed.

(** X11.  What a call returns is what the cache then holds: when the
    next call finds the snapshot younger than 5 minutes, it returns the
    same list and makes no upstream request. *)
Theorem second_call_served_from_cache env w ps w1 :
  fetchAllProducts env w = (Returned ps, w1) ->
  clock env (clockReads w1) - cacheTime w1 < CACHE_TTL_MS ->
  productsCache w1 = Some ps
  /\ fetchAllProducts env w1 = (Returned ps, ticked w1)
  /\ catalogFetches (ticked w1) = catalogFetches w1.
Proof.
  intros E Ht.
  assert (Hc : productsCache w1 = Some ps).
  { destruct (fetchAllProducts_cases env w)
      as [(ps' & Hc & _ & E')
         | (_ & w0 & _ & _ & _ & _ & [(ps' & _ & E') | (_ & m & E')])];
      rewrite E in E'; try discriminate E'.
    - injection E' as -> ->. exact Hc.
    - injection E' as -> ->. reflexivity. }
  split; [exact Hc | split; [|reflexivity]].
  now apply fetchAllProducts_fresh.
Qed.

Lemma second_call_served_from_cache_witness :
  fetchAllProducts (Fixture.serving Fixture.catalog) initial
  = (Returned Fixture.catalog, mkWorld (Some Fixture.catalog) 0 1 1)
  /\ clock (Fixture.serving Fixture.catalog) 1 - 0 < CACHE_TTL_MS
  /\ fetchAllProducts (Fixture.serving Fixture.catalog)
       (mkWorld (Some Fixture.catalog) 0 1 1)
     = (Returned Fixture.catalog, mkWorld (Some Fixture.catalog) 0 2 1).
Proof.
  split; [reflexivity | split; [reflexivity|]].
  exact (proj1 (proj2
           (second_call_served_from_cache (Fixture.serving Fixture.catalog)
              initial Fixture.catalog (mkWorld (Some Fixture.catalog) 0 1 1)
              eq_refl eq_refl))).
Defined.

(** X12.  One call of the tool makes at most one request to the
    upstream endpoint and reads the clock at most twice. *)
Theorem tool_fetches_at_most_once query size gender env w :
  let w' := snd (search_allbirds_shoes query size gender env w) in
  (catalogFetches w <= catalogFetches w' <= S (catalogFetches w))%nat
  /\ (clockReads w <= clockReads w' <= 2 + clockReads w)%nat.
Proof.
  simpl. rewrite (proj1 (tool_follows_fetch query size gender env w)).
  destruct (fetchAllProducts_cases env w)
    as [(ps & _ & _ & ->)
       | (_ & w0 & _ & _ & Hf & Hr & [(ps & _ & ->) | (_ & m & ->)])];
    simpl; lia.
Qed.




(** * The search: further properties *)

Lemma fetchAllProducts_images env images w :
  fetchAllProducts (with_images env images) w = fetchAllProducts env w.
Proof.
  assert (R : forall w0, refresh (with_images env images) w0 = refresh env w0).
  { intros w0. unfold refresh, fetch_catalog. run.
    destruct (upstream env (catalogFetches w0)) as [m|st js]; [reflexivity|].
    simpl. destruct (status_ok st); [|reflexivity]. simpl.
    destruct js; reflexivity. }
  unfold fetchAllProducts, get_productsCache. run.
  destruct (productsCache w); [|apply R].
  unfold Date_now, get_cacheTime. run.
  destruct (_ <? _); [reflexivity | apply R].
Qed.

Lemma shoes_of_same usSize ps shoes shoes' :
  Forall2 (shoe_of usSize) ps shoes -> Forall2 (shoe_of usSize) ps shoes' ->
  Forall2 same_but_image shoes shoes'.
Proof.
  intros H. revert shoes'. induction H as [|p shoe ps shoes Hs H IH];
    intros shoes' H'; inversion H' as [|p' shoe' ps' shoes'' Hs' H'']; subst;
    constructor; [|now apply IH].
  destruct Hs as (A & B & C & D & E), Hs' as (A' & B' & C' & D' & E').
  unfold same_but_image. repeat split; congruence.
Qed.

(** X15.  The image server has no say in the search: with another
    one, the tool leaves the same state and gives the same answer but
    for the images of the shoes; an image that fails fails nothing
    else. *)
Theorem images_do_not_matter query size gender env images w :
  let a := search_allbirds_shoes query size gender env w in
  let a' := search_allbirds_shoes query size gender (with_images env images) w in
  let r := structuredContent (fst a) in
  let r' := structuredContent (fst a') in
  snd a' = snd a
  /\ isError (fst a') = isError (fst a)
  /\ SearchResult.query r' = SearchResult.query r
  /\ SearchResult.size r' = SearchResult.size r
  /\ SearchResult.gender r' = SearchResult.gender r
  /\ SearchResult.totalFound r' = SearchResult.totalFound r
  /\ SearchResult.error r' = SearchResult.error r
  /\ Forall2 same_but_image (SearchResult.shoes r') (SearchResult.shoes r).
Proof.
  simpl. unfold search_allbirds_shoes.
  destruct (fetchAllProducts env w) as [[allProducts|message] w1] eqn:E.
  - destruct (searchAllbirds_returns query size gender env w allProducts w1 E)
      as (shoes & -> & H).
    rewrite <- (fetchAllProducts_images env images) in E.
    destruct (searchAllbirds_returns query size gender (with_images env images)
                w allProducts w1 E) as (shoes' & -> & H').
    simpl. repeat split. eapply shoes_of_same; eassumption.
  - rewrite (searchAllbirds_throws query size gender env w message w1 E).
    rewrite <- (fetchAllProducts_images env images) in E.
    rewrite (searchAllbirds_throws query size gender (with_images env images)
               w message w1 E).
    simpl. repeat split. constructor.
Qed.





(** X17.  The total of a successful search is at most the size of the
    catalog, and the result has no shoes exactly when the total is
    0. *)
Theorem total_is_bounded query size gender env w allProducts w1 :
  fetchAllProducts env w = (Returned allProducts, w1) ->
  exists result,
    searchAllbirds query size gender env w = (Returned result, w1)
    /\ (SearchResult.totalFound result <= length allProducts)%nat
    /\ (SearchResult.shoes result = [] <-> SearchResult.totalFound result = 0%nat).
Proof.
  intros E.
  destruct (searchAllbirds_returns query size gender env w allProducts w1 E)
    as (shoes & Es & H).
  eexists; split; [exact Es|]. simpl.
  set (matches := select _ _ _ _) in *.
  split.
  - unfold matches. rewrite select_passes. apply sublist_length, filter_sublist.
  - apply Forall2_length in H. rewrite length_firstn in H.
    split.
    + intros ->. cbn [length] in H. lia.
    + intros Z. rewrite Z in H. destruct shoes; [reflexivity | discriminate H].
Qed.

Lemma total_is_bounded_witness :
  fetchAllProducts (Fixture.serving Fixture.catalog) initial
  = (Returned Fixture.catalog, mkWorld (Some Fixture.catalog) 0 1 1)
  /\ exists result,
       searchAllbirds "sandal" None None
         (Fixture.serving Fixture.catalog) initial
       = (Returned result, mkWorld (Some Fixture.catalog) 0 1 1)
       /\ (SearchResult.totalFound result <= 8)%nat
       /\ (SearchResult.shoes result = []
           <-> SearchResult.totalFound result = 0%nat).
Proof.
  split; [reflexivity|].
  exact (total_is_bounded "sandal" None None
           (Fixture.serving Fixture.catalog) initial Fixture.catalog
           (mkWorld (Some Fixture.catalog) 0 1 1) eq_refl).
Defined.

(** X18.  The image of a shoe is the empty string or a data URL, never
    a remote address; it is empty for a product without images and
    whenever the image server fails or answers a status that is not a
    success. *)
Theorem image_is_inline_or_empty usSize p env w :
  exists shoe,
    build_shoe usSize p env w = (Returned shoe, w)
    /\ (Shoe.imageUrl shoe = EmptyString
        \/ starts_with "data:" (Shoe.imageUrl shoe) = true)
    /\ (Product.images p = [] -> Shoe.imageUrl shoe = EmptyString)
    /\ ((forall url, match image_server env url with
                     | ImageFailed => True
                     | ImageResponse status _ _ => status_ok status = false
                     end) ->
        Shoe.imageUrl shoe = EmptyString).
Proof.
  unfold build_shoe. run.
  destruct (Product.images p) as [|src rest]; simpl.
  - eexists; split; [reflexivity|]. simpl. auto.
  - destruct (truthy src) eqn:T.
    + unfold fetchImageAsDataUrl, fetch_image. run.
      set (imgUrl := src +:+ _ +:+ _).
      destruct (image_server env imgUrl) as [|st ct b] eqn:I; simpl.
      * eexists; split; [reflexivity|]. simpl.
        split; [now left | split; [discriminate | auto]].
      * destruct (status_ok st) eqn:K; simpl.
        -- eexists; split; [reflexivity|]. simpl.
           split; [right; unfold starts_with; simpl;
                   now destruct (nullish ct _ +:+ _)
                 | split; [discriminate|]].
           intros H. specialize (H imgUrl). rewrite I in H. congruence.
        -- eexists; split; [reflexivity|]. simpl.
           split; [now left | split; [discriminate | auto]].
    + eexists; split; [reflexivity|]. simpl.
      split; [now left | split; [discriminate | auto]].
Qed.

Lemma image_is_inline_or_empty_witness :
  (Product.images Fixture.two_nines = []
   /\ exists shoe,
        build_shoe (Some "9") Fixture.two_nines Fixture.failing initial
        = (Returned shoe, initial)
        /\ Shoe.imageUrl shoe = EmptyString)
  /\ ((forall url, match image_server Fixture.failing url with
                   | ImageFailed => True
                   | ImageResponse status _ _ => status_ok status = false
                   end)
      /\ exists shoe,
           build_shoe None (Fixture.runner "1") Fixture.failing initial
           = (Returned shoe, initial)
           /\ Shoe.imageUrl shoe = EmptyString).
Proof.
  split.
  - split; [reflexivity|].
    destruct (image_is_inline_or_empty (Some "9") Fixture.two_nines
                Fixture.failing initial) as (shoe & E & _ & H & _).
    exists shoe. split; [exact E | exact (H eq_refl)].
  - assert (F : forall url, match image_server Fixture.failing url with
                            | ImageFailed => True
                            | ImageResponse status _ _ =>
                                status_ok status = false
                            end) by (intros url; exact I).
    split; [exact F|].
    destruct (image_is_inline_or_empty None (Fixture.runner "1")
                Fixture.failing initial) as (shoe & E & _ & _ & H).
    exists shoe. split; [exact E | exact (H F)].
Defined.

(** * Edge cases of the search *)

Lemma filter_none {A : Type} (f : A -> bool) (l : list A) :
  Forall (fun x => f x = false) l -> List.filter f l = [].
Proof.
  induction 1 as [|x l Hx _ IH]; simpl; [reflexivity | now rewrite Hx].
Qed.

Lemma filter_all {A : Type} (f : A -> bool) (l : list A) :
  (forall x, f x = true) -> List.filter f l = l.
Proof.
  intros H. induction l as [|x l IH]; simpl; [reflexivity|].
  now rewrite H, IH.
Qed.

Lemma first_size_tokens_none rawQuery :
  Forall (fun token => is_size_token token = false) (tokenize rawQuery) ->
  Parsed.size (parseQueryAndSize rawQuery None) = None.
Proof.
  intros H. rewrite size_spec, sizeTokens_spec, (filter_none _ _ H).
  reflexivity.
Qed.

(** X19.  A query that holds nothing but white space, connector words
    and ignored words, with no size and no gender, matches the whole
    catalog: the total is the size of the catalog and the shoes are
    its first five products. *)
Theorem noise_query_returns_catalog query env w allProducts w1 :
  Forall (fun token => is_text_token token = false
                       /\ is_size_token token = false) (tokenize query) ->
  fetchAllProducts env w = (Returned allProducts, w1) ->
  exists result,
    searchAllbirds query None None env w = (Returned result, w1)
    /\ SearchResult.totalFound result = length allProducts
    /\ Forall2 (shoe_of None) (firstn 5 allProducts) (SearchResult.shoes result).
Proof.
  intros N E.
  assert (P : parseQueryAndSize query None = Parsed.mk [] None).
  { assert (T : Parsed.terms (parseQueryAndSize query None) = []).
    { rewrite terms_spec. apply filter_none.
      eapply Forall_impl; [exact N | now intros t [H _]]. }
    assert (S : Parsed.size (parseQueryAndSize query None) = None).
    { apply first_size_tokens_none.
      eapply Forall_impl; [exact N | now intros t [_ H]]. }
    destruct (parseQueryAndSize query None) as [terms size].
    simpl in *. now subst. }
  destruct (searchAllbirds_returns query None None env w allProducts w1 E)
    as (shoes & Es & H).
  rewrite P in Es, H. simpl in Es, H.
  assert (A : select [] None None allProducts = allProducts).
  { rewrite select_passes. apply filter_all. reflexivity. }
  rewrite A in Es, H.
  eexists; split; [exact Es|]. simpl. split; [reflexivity | exact H].
Qed.

Lemma noise_query_returns_catalog_witness :
  Forall (fun token => is_text_token token = false
                       /\ is_size_token token = false)
    (tokenize "  Shoes taille ")
  /\ fetchAllProducts (Fixture.serving Fixture.catalog) initial
     = (Returned Fixture.catalog, mkWorld (Some Fixture.catalog) 0 1 1)
  /\ exists result,
       searchAllbirds "  Shoes taille " None None
         (Fixture.serving Fixture.catalog) initial
       = (Returned result, mkWorld (Some Fixture.catalog) 0 1 1)
       /\ SearchResult.totalFound result = 8%nat
       /\ Forall2 (shoe_of None) (firstn 5 Fixture.catalog)
            (SearchResult.shoes result).
Proof.
  assert (N : Forall (fun token => is_text_token token = false
                                   /\ is_size_token token = false)
                (tokenize "  Shoes taille "))
    by (repeat constructor).
  split; [exact N | split; [reflexivity|]].
  exact (noise_query_returns_catalog "  Shoes taille "
           (Fixture.serving Fixture.catalog) initial Fixture.catalog
           (mkWorld (Some Fixture.catalog) 0 1 1) N eq_refl).
Defined.

(** X20.  An upstream document without [products] is taken as an
    empty catalog: the tool answers no shoes, a total of 0 and no
    error, and the empty list becomes the snapshot. *)
Theorem missing_products_is_empty_catalog query size gender env w status :
  refresh_due env w ->
  upstream env (catalogFetches w) = HttpResponse status (JsonData None) ->
  status_ok status = true ->
  let answer := fst (search_allbirds_shoes query size gender env w) in
  let w' := snd (search_allbirds_shoes query size gender env w) in
  isError answer = false
  /\ SearchResult.shoes (structuredContent answer) = []
  /\ SearchResult.totalFound (structuredContent answer) = 0%nat
  /\ SearchResult.error (structuredContent answer) = None
  /\ productsCache w' = Some [].
Proof.
  intros Hdue U K. simpl.
  assert (C : catalog_of (upstream env (catalogFetches w)) = Some [])
    by (rewrite U; simpl; now rewrite K).
  assert (E : exists w1, fetchAllProducts env w = (Returned [], w1)
                         /\ productsCache w1 = Some []).
  { destruct (fetchAllProducts_cases env w)
      as [(ps & Hc & Ht & _)
         | (_ & w0 & _ & _ & _ & _ & [(ps & C' & E) | (C' & _)])].
    - exfalso. destruct Hdue as [H|H]; [congruence|].
      unfold CACHE_TTL_MS in *. lia.
    - rewrite C in C'. injection C' as <-. eexists; split; [exact E|reflexivity].
    - congruence. }
  destruct E as (w1 & E & Hc).
  destruct (searchAllbirds_returns query size gender env w [] w1 E)
    as (shoes & Es & H).
  unfold search_allbirds_shoes. rewrite Es. simpl.
  inversion H. repeat split; auto.
Qed.

Lemma missing_products_is_empty_catalog_witness :
  refresh_due Fixture.bare initial
  /\ upstream Fixture.bare (catalogFetches initial)
     = HttpResponse 200 (JsonData None)
  /\ status_ok 200 = true
  /\ isError (fst (search_allbirds_shoes "runner" None None Fixture.bare
                     initial)) = false
  /\ SearchResult.totalFound
       (structuredContent
          (fst (search_allbirds_shoes "runner" None None Fixture.bare initial)))
     = 0%nat
  /\ productsCache
       (snd (search_allbirds_shoes "runner" None None Fixture.bare initial))
     = Some [].
Proof.
  assert (D : refresh_due Fixture.bare initial) by (left; reflexivity).
  split; [exact D | split; [reflexivity | split; [reflexivity|]]].
  destruct (missing_products_is_empty_catalog "runner" None None Fixture.bare
              initial 200 D eq_refl eq_refl) as (A & _ & B & _ & C).
  split; [exact A | split; [exact B | exact C]].
Defined.

(** * The app: properties *)

(** The result of an answer of the server's tool has no shoes when it
    has an error. *)
Lemma tool_result_shape query size gender env w :
  let r := structuredContent
             (fst (search_allbirds_shoes query size gender env w)) in
  SearchResult.query r = query
  /\ (SearchResult.error r = None \/ SearchResult.shoes r = []).
Proof.
  simpl. unfold search_allbirds_shoes.
  destruct (fetchAllProducts env w) as [[allProducts|message] w1] eqn:E.
  - destruct (searchAllbirds_returns query size gender env w allProducts w1 E)
      as (shoes & -> & _). simpl. auto.
  - rewrite (searchAllbirds_throws query size gender env w message w1 E).
    simpl. auto.
Qed.

(** The panel for a result that has no shoes when it has an error. *)
Lemma view_of_result r :
  SearchResult.error r = None \/ SearchResult.shoes r = [] ->
  App.AllbirdsApp None true (App.mkState (Some r) false)
  = [ match SearchResult.shoes r with
      | _ :: _ => App.Grid (SearchResult.shoes r)
      | [] =>
          match given (SearchResult.error r) with
          | Some e => App.Message e
          | None => App.NoResults (SearchResult.query r)
          end
      end ].
Proof.
  unfold App.AllbirdsApp, App.error_of. simpl.
  intros [H | H]; rewrite H; simpl.
  - now destruct (SearchResult.shoes r).
  - now destruct (given (SearchResult.error r)).
Qed.

(** X21.  When the tool answers, the app shows exactly one panel,
    whatever it showed before: the grid of the shoes when there are
    shoes, else the error of the answer when it has one that is not
    the empty string, else that there are no results for the query.
    The text of the answer is not parsed: the structured result is
    taken. *)
Theorem app_shows_the_answer parse stringify query size gender env w st :
  let r := structuredContent
             (fst (search_allbirds_shoes query size gender env w)) in
  App.AllbirdsApp None true
    (App.ontoolresult parse
       (App.sent stringify (fst (search_allbirds_shoes query size gender env w)))
       st)
  = [ match SearchResult.shoes r with
      | _ :: _ => App.Grid (SearchResult.shoes r)
      | [] =>
          match given (SearchResult.error r) with
          | Some e => App.Message e
          | None => App.NoResults query
          end
      end ].
Proof.
  intros r.
  change (App.ontoolresult parse (App.sent stringify _) st)
    with (App.mkState (Some r) false).
  destruct (tool_result_shape query size gender env w) as [Q H].
  fold r in Q, H. rewrite (view_of_result r H), Q. reflexivity.
Qed.

(** A state whose result, if any, has no shoes when it has an error. *)
Lemma one_panel st :
  match App.result st with
  | Some r => SearchResult.error r = None \/ SearchResult.shoes r = []
  | None => True
  end ->
  length (App.AllbirdsApp None true st) = 1%nat.
Proof.
  destruct st as [[r|] [|]]; intros H; cbn [App.result] in H.
  - unfold App.AllbirdsApp, App.error_of. simpl.
    now destruct (given (SearchResult.error r)).
  - now rewrite (view_of_result r H).
  - reflexivity.
  - reflexivity.
Qed.

(** X22.  Through a session with the server the app shows one panel
    at every moment: after any sequence of inputs, answers of the
    server's tool and cancellations, its container holds exactly one
    of the spinner, the invitation, the error, the notice of no
    results and the grid. *)
Theorem app_shows_one_panel parse stringify events :
  Forall (App.from_server stringify) events ->
  length (App.AllbirdsApp None true (fold_left (App.handle parse) events App.start))
  = 1%nat.
Proof.
  intros H. apply one_panel.
  assert (G : forall st,
             match App.result st with
             | Some r => SearchResult.error r = None \/ SearchResult.shoes r = []
             | None => True
             end ->
             match App.result (fold_left (App.handle parse) events st) with
             | Some r => SearchResult.error r = None \/ SearchResult.shoes r = []
             | None => True
             end).
  { induction H as [|e events He H IH]; intros st Hst; [exact Hst|].
    simpl. apply IH. destruct e as [|a|]; simpl.
    - exact I.
    - destruct He as (query & size & gender & env & w & ->).
      unfold App.ontoolresult, App.sent, App.extractResult. simpl.
      exact (proj2 (tool_result_shape query size gender env w)).
    - exact Hst. }
  apply G. exact I.
Qed.

Lemma app_shows_one_panel_witness :
  Forall (App.from_server (fun _ => EmptyString))
    [ App.ToolInput;
      App.ToolResult
        (App.sent (fun _ => EmptyString)
           (fst (search_allbirds_shoes "runner" None None Fixture.failing
                   initial)));
      App.ToolInput; App.ToolCancelled ]
  /\ length
       (App.AllbirdsApp None true
          (fold_left (App.handle (fun _ => None))
             [ App.ToolInput;
               App.ToolResult
                 (App.sent (fun _ => EmptyString)
                    (fst (search_allbirds_shoes "runner" None None
                            Fixture.failing initial)));
               App.ToolInput; App.ToolCancelled ]
             App.start))
     = 1%nat.
Proof.
  assert (F : Forall (App.from_server (fun _ => EmptyString))
                [ App.ToolInput;
                  App.ToolResult
                    (App.sent (fun _ => EmptyString)
                       (fst (search_allbirds_shoes "runner" None None
                               Fixture.failing initial)));
                  App.ToolInput; App.ToolCancelled ]).
  { repeat constructor.
    exists "runner", None, None, Fixture.failing, initial. reflexivity. }
  split; [exact F|].
  exact (app_shows_one_panel (fun _ => None) (fun _ => EmptyString) _ F).
Defined.

Lemma shoes_of_member usSize ps shoes shoe :
  Forall2 (shoe_of usSize) ps shoes -> In shoe shoes ->
  exists p, In p ps /\ shoe_of usSize p shoe.
Proof.
  induction 1 as [|p s ps shoes Hs _ IH]; intros Hin; [inversion Hin|].
  destruct Hin as [<- | Hin].
  - exists p. split; [now left | exact Hs].
  - destruct (IH Hin) as (p' & Hp & Hs'). exists p'. split; [now right | exact Hs'].
Qed.

Lemma member_of_firstn {A : Type} (n : nat) (l : list A) (x : A) :
  In x (firstn n l) -> In x l.
Proof.
  revert l. induction n as [|n IH]; intros [|y l] H; simpl in H;
    try contradiction.
  destruct H as [<- | H]; [now left | right; now apply IH].
Qed.

(** X23.  Every card of a result shows the size tag "US" followed by
    the size the search resolved, and no tag when it resolved none;
    the card opens the product address of a product of the catalog
    that passes the filters. *)
Theorem cards_show_resolved_size query size gender env w allProducts w1 :
  fetchAllProducts env w = (Returned allProducts, w1) ->
  exists result,
    searchAllbirds query size gender env w = (Returned result, w1)
    /\ forall shoe imgError,
         In shoe (SearchResult.shoes result) ->
         App.sizeTag (App.ShoeCard shoe imgError)
         = (fun s => "US " +:+ s) <$> Parsed.size (parseQueryAndSize query size)
         /\ exists p,
              In p allProducts
              /\ passes (Parsed.terms (parseQueryAndSize query size)) gender
                   (Parsed.size (parseQueryAndSize query size)) p = true
              /\ App.opens (App.ShoeCard shoe imgError)
                 = productUrl_of (Parsed.size (parseQueryAndSize query size)) p.
Proof.
  intros E.
  destruct (searchAllbirds_returns query size gender env w allProducts w1 E)
    as (shoes & Es & H).
  eexists; split; [exact Es|]. simpl. intros shoe imgError Hin.
  destruct (shoes_of_member _ _ _ shoe H Hin) as (p & Hp & _ & _ & _ & Hu & Hz).
  split.
  - rewrite Hz, given_size.
    now destruct (Parsed.size (parseQueryAndSize query size)).
  - exists p. rewrite select_passes in Hp.
    apply member_of_firstn, filter_In in Hp as [Hp Hf].
    repeat split; assumption.
Qed.

Lemma cards_show_resolved_size_witness :
  fetchAllProducts (Fixture.serving Fixture.catalog) initial
  = (Returned Fixture.catalog, mkWorld (Some Fixture.catalog) 0 1 1)
  /\ exists result,
       searchAllbirds "runner" (Some "42") None
         (Fixture.serving Fixture.catalog) initial
       = (Returned result, mkWorld (Some Fixture.catalog) 0 1 1)
       /\ forall shoe imgError,
            In shoe (SearchResult.shoes result) ->
            App.sizeTag (App.ShoeCard shoe imgError) = Some "US 9".
Proof.
  split; [reflexivity|].
  destruct (cards_show_resolved_size "runner" (Some "42") None
              (Fixture.serving Fixture.catalog) initial Fixture.catalog
              (mkWorld (Some Fixture.catalog) 0 1 1) eq_refl)
    as (result & E & H).
  exists result. split; [exact E|].
  intros shoe imgError Hin. exact (proj1 (H shoe imgError Hin)).
Defined.
